(** * smart-price-monitor: a shallow embedding of the price-monitoring engine

    The development follows the layout of the repository:

    - [Js]        the JavaScript values the code computes with: strings as
                  sequences of UTF-16 code units, numbers as IEEE-754
                  binary64 values, and the built-ins [trim], [split],
                  [replace] and [parseFloat] the code calls;
    - [Cheerio]   the loaded page and the selection calls [first] and [text];
    - [Runtime]   the process state (database handle, bot handle, session
                  map, console) and the monad of throwing, state-changing
                  computations;
    - [Sqlite]    src/@database/sqlite.js;
    - [Helpers]   src/@helpers/helpers.js;
    - [Commands]  the command handlers (commands.js);
    - [Schedule]  src/@cron/schedule.js.

    The definitions come first; the lemmas and the theorems on extraction,
    the store, the polling task and the conversation follow them. *)

From Stdlib Require Import ZArith NArith List Lia.
From Stdlib Require Import Floats.SpecFloat.
From stdpp Require Import base option list strings pretty gmap.

Open Scope Z_scope.

(* ===================================================================== *)
(** * JavaScript strings and numbers                                      *)
(* ===================================================================== *)

Module Js.

(** A JavaScript string is a sequence of 16-bit code units. *)
Abbreviation jsstring := (list N).

(** The code units of an ASCII literal of the source. *)
Definition str (s : string) : jsstring :=
  (λ a, Ascii.N_of_ascii a) <$> String.list_ascii_of_string s.

(** A string is truthy when it is not empty. *)
Definition truthy_string (s : jsstring) : bool :=
  match s with [] => false | _ => true end.

(** ** White space

    ECMAScript's WhiteSpace and LineTerminator code points, the set removed
    by [String.prototype.trim] and skipped by [parseFloat]. *)
Definition isWhiteSpace (c : N) : bool :=
  bool_decide (c ∈ [ 9; 10; 11; 12; 13; 32; 160; 5760; 8232; 8233; 8239; 8287;
                     12288; 65279 ]%N)
  || ((8192 <=? c) && (c <=? 8202))%N.

Fixpoint trimStart (s : jsstring) : jsstring :=
  match s with
  | c :: s' => if isWhiteSpace c then trimStart s' else s
  | [] => []
  end.

Definition trimEnd (s : jsstring) : jsstring := reverse (trimStart (reverse s)).

Definition trim (s : jsstring) : jsstring := trimEnd (trimStart s).

(** ** [split] on a one-character separator

    [s.split("-")]: the pieces between the occurrences of the separator; the
    result always has at least one piece. *)
Fixpoint split (sep : N) (s : jsstring) : list jsstring :=
  match s with
  | [] => [[]]
  | c :: s' =>
      if (c =? sep)%N then [] :: split sep s'
      else match split sep s' with
           | p :: ps => (c :: p) :: ps
           | [] => [[c]]
           end
  end.

(** ** [replace(/[,.]/g, "")]: every comma and full stop removed. *)
Definition comma : N := 44.
Definition full_stop : N := 46.
Definition hyphen : N := 45.

Definition strip_punctuation (s : jsstring) : jsstring :=
  filter (λ c, c ≠ comma ∧ c ≠ full_stop) s.

(** ** Numbers

    A JavaScript number is an IEEE-754 binary64 value. *)
Abbreviation number := spec_float.

Definition prec : Z := 53.
Definition emax : Z := 1024.

Definition NaN : number := S754_nan.
Definition Infinity (negative : bool) : number := S754_infinity negative.

(** The number an integer literal of the source denotes. *)
Definition of_Z (z : Z) : number := binary_normalize prec emax z 0 false.

(** [!x] on a number: true for [+0], [-0] and [NaN]. *)
Definition falsy (x : number) : bool :=
  match x with
  | S754_zero _ | S754_nan => true
  | _ => false
  end.

(** [x === y] and [x < y] on numbers. *)
Definition strict_eq (x y : number) : bool := SFeqb x y.
Definition lt (x y : number) : bool := SFltb x y.

(** ** [parseFloat]

    The longest prefix of the trimmed input that is a StrDecimalLiteral
    ([Infinity], or digits with an optional fraction and an optional exponent,
    behind an optional sign), rounded to the nearest binary64 value; [NaN]
    when there is no such prefix. *)

Definition digit (c : N) : option N :=
  if ((48 <=? c) && (c <=? 57))%N then Some (c - 48)%N else None.

(** The leading decimal digits of [s], and what follows them. *)
Fixpoint span_digits (s : jsstring) : list N * jsstring :=
  match s with
  | c :: s' =>
      match digit c with
      | Some d => let '(ds, rest) := span_digits s' in (d :: ds, rest)
      | None => ([], s)
      end
  | [] => ([], [])
  end.

Definition digits_value (ds : list N) : N :=
  fold_left (λ acc d, 10 * acc + d)%N ds 0%N.

(** The value of an ExponentPart at the head of [s], 0 when there is none. *)
Definition exponent_part (s : jsstring) : Z :=
  match s with
  | c :: s' =>
      if bool_decide (c = 101 ∨ c = 69)%N then
        let '(negative, s'') :=
          match s' with
          | 43%N :: t => (false, t)
          | 45%N :: t => (true, t)
          | _ => (false, s')
          end in
        match span_digits s'' with
        | ([], _) => 0
        | (ds, _) =>
            let e := Z.of_N (digits_value ds) in
            if negative then - e else e
        end
      else 0
  | [] => 0
  end.

(** [m * 10^k] rounded to the nearest binary64 value, ties to even. *)
Definition of_decimal (negative : bool) (m : N) (k : Z) : number :=
  match m with
  | N0 => S754_zero negative
  | Npos p =>
      match k with
      | Zneg _ =>
          let '(q, e, l) :=
            SFdiv_core_binary prec emax (Zpos p) 0 (10 ^ (- k)) 0 in
          binary_round_aux prec emax negative q e l
      | _ => binary_round prec emax negative (Z.to_pos (Zpos p * 10 ^ k)) 0
      end
  end.

Definition parseFloat (s : jsstring) : number :=
  let s1 := trimStart s in
  let '(negative, s2) :=
    match s1 with
    | 43%N :: t => (false, t)
    | 45%N :: t => (true, t)
    | _ => (false, s1)
    end in
  if bool_decide (str "Infinity" `prefix_of` s2) then Infinity negative
  else
    let '(ip, r1) := span_digits s2 in
    let '(fp, r2) :=
      match r1 with
      | 46%N :: t => let '(fp, r) := span_digits t in
                     match ip, fp with
                     | [], [] => ([], r1)
                     | _, _ => (fp, r)
                     end
      | _ => ([], r1)
      end in
    match ip, fp with
    | [], [] => NaN
    | _, _ =>
        of_decimal negative (digits_value (ip ++ fp))
                   (exponent_part r2 - Z.of_nat (length fp))
    end.

End Js.

Import Js.

(* ===================================================================== *)
(** * The loaded page                                                     *)
(* ===================================================================== *)

Module Cheerio.

(** The page as [cheerio.load] holds it: a forest of text nodes and elements
    with their class lists. *)
#[local] Set Warnings "-register-all".
Inductive Node :=
| Text (data : jsstring)
| Element (name : jsstring) (classes : list jsstring) (children : list Node).

(** The text of a node: the text of its descendants, in document order. *)
Fixpoint textContent (n : Node) : jsstring :=
  match n with
  | Text data => data
  | Element _ _ children => flat_map textContent children
  end.

(** The elements of class [c] in and under [n], in document order. *)
Fixpoint by_class (c : jsstring) (n : Node) : list Node :=
  match n with
  | Text _ => []
  | Element _ classes children =>
      (if bool_decide (c ∈ classes) then [n] else [])
        ++ flat_map (by_class c) children
  end.

Definition Selection := list Node.

(** [$]: from a selector to the elements it matches. *)
Definition CheerioAPI := jsstring → Selection.

(** The code only builds selectors of the form [`.${name}`] from the names
    of the selector table, which are class names. *)
Definition load (data : list Node) : CheerioAPI :=
  λ selector,
    match selector with
    | 46%N :: c => flat_map (by_class c) data
    | _ => []
    end.

Definition first (s : Selection) : Selection := take 1 s.

Definition text (s : Selection) : jsstring := flat_map textContent s.

End Cheerio.

Import Cheerio.

(* ===================================================================== *)
(** * The process state and the monad of the handlers                     *)
(* ===================================================================== *)

Module Runtime.

(** What a [throw] carries: an [Error], a [TypeError] or a [RangeError], with
    its message. *)
Inductive Exn :=
| Error (message : jsstring)
| TypeError (message : jsstring)
| RangeError (message : jsstring).

Definition message_of (e : Exn) : jsstring :=
  match e with Error m | TypeError m | RangeError m => m end.

(** How a call ends: it returns a value or it throws.  A rejected promise
    is a [Throw] at the [await] that receives it. *)
Inductive Completion (A : Type) :=
| Normal (a : A)
| Throw (e : Exn).
Arguments Normal {A} a.
Arguments Throw {A} e.

(** A row of the table [price_tracker] (sqlite.js). *)
Record Row := {
  id : Z;
  chat_id : Z;
  url : jsstring;
  site : jsstring;
  last_price : number;
  currency : jsstring;
}.

(** The database: the rows in rowid order and the AUTOINCREMENT counter. *)
Record Database := {
  price_tracker : list Row;
  sqlite_sequence : Z;
}.

(** The texts handed to [bot.sendMessage], by template, with the values
    interpolated into them. *)
Inductive Body :=
| FetchingPrice
| ProductAdded (currencyText : jsstring) (price : number)
| SendProductInfo
| InvalidFormat
| Removing (id : jsstring)
| Removed (id : jsstring)
| NoProductFound (id : jsstring)
| SendId
| PriceDrop (url old_currency : jsstring) (old_price : number)
            (currency : jsstring) (price : number).

Record Sent := { to : Z; body : Body }.

(** The pending step of a conversation: the two values [userStates] is
    ever given. *)
Inductive Step := awaiting_site_url | awaiting_remove.

(** An argument of [console.error]. *)
Inductive Logged := LogText (s : jsstring) | LogExn (e : Exn).

(** The module-level state of the process: [dbInstance] (sqlite.js),
    [botInstance] with the messages it was asked to send and [userStates]
    (commands.js), and the lines written by [console.error]; the lines of
    [console.debug] are left out. *)
Record World := {
  dbInstance : option Database;
  botInstance : option (list Sent);
  userStates : gmap Z Step;
  console_error : list (list Logged);
}.

Definition set_db (db : Database) (w : World) : World :=
  {| dbInstance := Some db; botInstance := botInstance w;
     userStates := userStates w; console_error := console_error w |}.

Definition set_bot (b : list Sent) (w : World) : World :=
  {| dbInstance := dbInstance w; botInstance := Some b;
     userStates := userStates w; console_error := console_error w |}.

Definition set_userStates (u : gmap Z Step) (w : World) : World :=
  {| dbInstance := dbInstance w; botInstance := botInstance w;
     userStates := u; console_error := console_error w |}.

Definition set_console (c : list (list Logged)) (w : World) : World :=
  {| dbInstance := dbInstance w; botInstance := botInstance w;
     userStates := userStates w; console_error := c |}.

(** The messages sent so far. *)
Definition sent (w : World) : list Sent := default [] (botInstance w).

(** A computation that reads and writes the process state and returns or
    throws.  An [await] of an [async] call is the call itself: a handler is
    run from its start to its end, and the interleaving of two handlers at
    their awaits is not part of the model. *)
Definition M (A : Type) : Type := World → Completion A * World.

#[global] Instance M_ret : MRet M := λ A a w, (Normal a, w).

#[global] Instance M_bind : MBind M := λ A B f m w,
  match m w with
  | (Normal a, w') => f a w'
  | (Throw e, w') => (Throw e, w')
  end.

Definition throw {A} (e : Exn) : M A := λ w, (Throw e, w).

(** A synchronous call that may throw. *)
Definition lift {A} (c : Completion A) : M A := λ w, (c, w).

(** [try { body } catch (e) { handler }] *)
Definition try_catch {A} (body : M A) (handler : Exn → M A) : M A := λ w,
  match body w with
  | (Normal a, w') => (Normal a, w')
  | (Throw e, w') => handler e w'
  end.

Definition get : M World := λ w, (Normal w, w).
Definition modify (f : World → World) : M unit := λ w, (Normal tt, f w).

Definition console_error_log (args : list Logged) : M unit :=
  modify (λ w, set_console (console_error w ++ [args]) w).

(** [botInstance.sendMessage(chatId, text, options)]: a [TypeError] while
    [botInstance] is null. *)
Definition sendMessage (chatId : Z) (text : Body) : M unit := λ w,
  match botInstance w with
  | Some outbox =>
      (Normal tt, set_bot (outbox ++ [{| to := chatId; body := text |}]) w)
  | None =>
      (Throw (TypeError (str "Cannot read properties of null (reading 'sendMessage')")), w)
  end.

End Runtime.

Import Runtime.

(* ===================================================================== *)
(** * src/@database/sqlite.js                                              *)
(* ===================================================================== *)

Module Sqlite.

Definition getInstance : M Database := λ w,
  match dbInstance w with
  | Some db => (Normal db, w)
  | None => (Throw (Error (str "Database not initialized!")), w)
  end.

(** What a statement leaves in the table. *)
Definition write (rows : list Row) (seq : Z) : M unit :=
  modify (set_db {| price_tracker := rows; sqlite_sequence := seq |}).

(** [initializeDatabase()].  [file] is the table [price_tracker] as the file
    at [DB_PATH] holds it when it is opened, [None] when the file has no such
    table yet: [CREATE TABLE IF NOT EXISTS] then leaves an empty one. *)
Definition initializeDatabase (file : option Database) : M Database := λ w,
  match dbInstance w with
  | Some db => (Normal db, w)
  | None =>
      let db := default {| price_tracker := []; sqlite_sequence := 0 |} file in
      (Normal db, set_db db w)
  end.

(** ** The column [last_price NUMERIC], as it is stored and read

    A number is bound as a double.  The NUMERIC column keeps it as an
    INTEGER when it is an integer strictly between -2^63 and 2^63, and as a
    REAL otherwise; [stored_integer] is that INTEGER. *)
Definition stored_integer (x : number) : option Z :=
  match x with
  | S754_zero _ => Some 0
  | S754_finite negative m e =>
      let numerator := Z.pos m * 2 ^ Z.max 0 e in
      let denominator := 2 ^ Z.max 0 (- e) in
      if (numerator mod denominator =? 0) && (numerator / denominator <? 2 ^ 63)
      then Some (if negative then - (numerator / denominator)
                 else numerator / denominator)
      else None
  | S754_infinity _ | S754_nan => None
  end.

(** A stored INTEGER is returned as a number up to [Number.MAX_SAFE_INTEGER]
    in magnitude; a statement that meets a larger one throws. *)
Definition MAX_SAFE_INTEGER : Z := 2 ^ 53 - 1.

Definition too_large (x : number) : bool :=
  match stored_integer x with
  | Some z => bool_decide (MAX_SAFE_INTEGER < Z.abs z)
  | None => false
  end.

End Sqlite.

Import Sqlite.

(* ===================================================================== *)
(** * src/@helpers/helpers.js                                              *)
(* ===================================================================== *)

(** An entry of the selector table: [selector.price], [selector.currency]. *)
Module Selector.
Record t := { price : jsstring; currency : jsstring }.
End Selector.

(** The argument [record] of [updateWatchlist]. *)
Module Update.
Record t := { id : Z; lastPrice : number; currency : jsstring }.
End Update.

(** How [axios.get] ends: with the page, or with an error. *)
Inductive Response :=
| Page (data : list Node)
| Failed (message : jsstring).

(** What the process does not hold itself:
    - [classSelectors], the table of constants.js, read as
      [classSelectors[site]] ([None] for undefined);
    - [axios_get], the outcome of [axios.get(url, { headers })];
    - [integer_of_text], the integer SQLite compares with the column [id]
      when the bound argument is a text, if it reads it as one;
    - [out_of_range], the message of the [RangeError] of node:sqlite for a
      stored INTEGER it does not return as a number. *)
Class Outside := {
  classSelectors : jsstring → option Selector.t;
  axios_get : jsstring → Response;
  integer_of_text : jsstring → option Z;
  out_of_range : Z → jsstring;
}.

Module Helpers.

Record Reading := { price : number; currencyText : jsstring }.

(** A value bound to a [?] that is compared with the column [id]. *)
Inductive SqlArg :=
| ArgNumber (z : Z)
| ArgText (s : jsstring).

(** The literal of the source, code unit by code unit. *)
Definition fallback_currency : jsstring := [226; 8218; 185]%N.

Definition is_nan (x : number) : bool :=
  match x with S754_nan => true | _ => false end.

(** [max(rowid)] of the table, 0 when it is empty. *)
Definition max_id (rows : list Row) : Z :=
  foldr (λ r m, Z.max (id r) m) 0 rows.

Definition set_price (record : Update.t) (r : Row) : Row :=
  if bool_decide (id r = Update.id record) then
    {| id := id r; chat_id := chat_id r; url := url r; site := site r;
       last_price := Update.lastPrice record;
       currency := Update.currency record |}
  else r.

Section Helpers.
Context `{Outside}.

(** [id = ?] on a row. *)
Definition id_is (arg : SqlArg) (r : Row) : Prop :=
  match arg with
  | ArgNumber z => id r = z
  | ArgText s => integer_of_text s = Some (id r)
  end.

#[global] Instance id_is_dec arg r : Decision (id_is arg r).
Proof. destruct arg; simpl; apply _. Defined.

Definition getAmazonPrice (selector : option Selector.t) (dollar : CheerioAPI)
  : Completion Reading :=
  match selector with
  | None =>
      Throw (TypeError (str "Cannot read properties of undefined (reading 'price')"))
  | Some selector =>
      let price := of_Z 0 in
      let currencyText := fallback_currency in
      let priceText :=
        strip_punctuation
          (text (first (dollar (str "." ++ Selector.price selector)))) in
      let currencyText :=
        text (first (dollar (str "." ++ Selector.currency selector))) in
      let price :=
        if truthy_string priceText then parseFloat priceText else price in
      Normal {| price := price; currencyText := currencyText |}
  end.

Definition pipeline (site : jsstring) (selector : option Selector.t)
    (dollar : CheerioAPI) : Completion Reading :=
  if bool_decide (site = str "amazon") then getAmazonPrice selector dollar
  else Throw (Error (str "Unsupported site")).

Definition fetchPrice (url site : jsstring) : M Reading :=
  match axios_get url with
  | Failed message => throw (Error message)
  | Page data =>
      let dollar := load data in
      let selector := classSelectors site in
      lift (pipeline site selector dollar)
  end.

(** [INSERT ... RETURNING chat_id].  A NaN is bound as NULL, which the
    column [last_price] refuses. *)
Definition addToWatchlist (chatId : Z) (url site : jsstring) (price : number)
    (currency : jsstring) : M Z :=
  db ← getInstance;
  try_catch
    (if is_nan price then
       throw (Error (str "NOT NULL constraint failed: price_tracker.last_price"))
     else
       let rowid :=
         Z.max (sqlite_sequence db) (max_id (price_tracker db)) + 1 in
       write (price_tracker db ++
                [{| id := rowid; chat_id := chatId; url := url; site := site;
                    last_price := price; currency := currency |}])
             rowid;;
       mret chatId)
    (λ err,
       console_error_log [LogText (str "Something went wrong:"); LogExn err];;
       throw (Error (str "Database insertion failed"))).

(** [UPDATE ... WHERE id = ? RETURNING chat_id]; [get] gives the first
    returned row, or undefined, which the destructuring refuses. *)
Definition updateWatchlist (record : Update.t) : M Z :=
  db ← getInstance;
  try_catch
    (let found := filter (λ r, id r = Update.id record) (price_tracker db) in
     if is_nan (Update.lastPrice record) && bool_decide (found ≠ []) then
       throw (Error (str "NOT NULL constraint failed: price_tracker.last_price"))
     else
       write (set_price record <$> price_tracker db) (sqlite_sequence db);;
       match head found with
       | Some r => mret (chat_id r)
       | None =>
           throw (TypeError (str "Cannot destructure property 'chat_id' of 'update.get(...)' as it is undefined."))
       end)
    (λ err,
       console_error_log [LogText (str "Something went wrong:"); LogExn err];;
       throw (Error (str "Database update failed"))).

(** A row as a statement returns it.  The columns are read in their order;
    [last_price] is refused when it is stored as an INTEGER beyond the safe
    range.  The sign of a stored zero, which [===], [<], [!] and the
    templates do not tell, is left as it was bound; [id] and [chat_id] are
    taken within the safe range, where ids counted from 1 and the chat ids
    of Telegram are. *)
Definition read_row (r : Row) : Completion Row :=
  match stored_integer (last_price r) with
  | Some z =>
      if bool_decide (Z.abs z ≤ MAX_SAFE_INTEGER) then Normal r
      else Throw (RangeError (out_of_range z))
  | None => Normal r
  end.

(** [select.all(...)] on the selected rows, in rowid order: it throws at the
    first row it cannot return. *)
Fixpoint select_all (rows : list Row) : Completion (list Row) :=
  match rows with
  | [] => Normal []
  | r :: rest =>
      match read_row r with
      | Throw e => Throw e
      | Normal r' =>
          match select_all rest with
          | Normal others => Normal (r' :: others)
          | Throw e => Throw e
          end
      end
  end.

Definition getWatchlist (chatId : Z) : M (list Row) :=
  db ← getInstance;
  try_catch
    (lift (select_all (filter (λ r, chat_id r = chatId) (price_tracker db))))
    (λ err,
       console_error_log [LogText (str "Something went wrong:"); LogExn err];;
       throw (Error (str "Database query failed"))).

Definition getAllWatchlist : M (list Row) :=
  db ← getInstance;
  try_catch
    (lift (select_all (price_tracker db)))
    (λ err,
       console_error_log [LogText (str "Something went wrong:"); LogExn err];;
       throw (Error (str "Database query failed"))).

(** [DELETE ... WHERE chat_id = ? AND id = ?]; the result is
    [result.changes]. *)
Definition removeFromWatchlist (chatId : Z) (id : SqlArg) : M nat :=
  db ← getInstance;
  try_catch
    (let doomed r := chat_id r = chatId ∧ id_is id r in
     write (filter (λ r, ¬ doomed r) (price_tracker db)) (sqlite_sequence db);;
     mret (length (filter doomed (price_tracker db))))
    (λ err,
       console_error_log [LogText (str "Something went wrong:"); LogExn err];;
       throw (Error (str "Database deletion failed"))).

(** [DELETE ... WHERE chat_id = ?] *)
Definition clearAll (chatId : Z) : M nat :=
  db ← getInstance;
  try_catch
    (let doomed r := chat_id r = chatId in
     write (filter (λ r, ¬ doomed r) (price_tracker db)) (sqlite_sequence db);;
     mret (length (filter doomed (price_tracker db))))
    (λ err,
       console_error_log [LogText (str "Something went wrong:"); LogExn err];;
       throw (Error (str "Database deletion failed"))).

End Helpers.
End Helpers.

Import Helpers.

(* ===================================================================== *)
(** * The command handlers (commands.js)                                   *)
(* ===================================================================== *)

(** An inbound message: [msg.text] is undefined when the message carries no
    text. *)
Module Telegram.
Record Message := { text : option jsstring }.
End Telegram.

Module Commands.

(** [createBot()].  [token] is [process.env.TELEGRAM_BOT_TOKEN], [None] when
    the variable is not set; the bot that is made has sent nothing yet. *)
Definition createBot (token : option jsstring) : M unit := λ w,
  match botInstance w with
  | Some _ => (Normal tt, w)
  | None =>
      if truthy_string (default [] token) then (Normal tt, set_bot [] w)
      else
        (Throw (Error (str "Telegram bot token is missing in environment variables.")), w)
  end.

Definition getBot : M unit := λ w,
  match botInstance w with
  | Some _ => (Normal tt, w)
  | None => (Throw (Error (str "Telegram bot not initialized!")), w)
  end.

Section Commands.
Context `{Outside}.

Definition addCommand (chatId : Z) (url site : jsstring) : M unit :=
  sendMessage chatId FetchingPrice;;
  reading ← fetchPrice url site;
  chat_id ← addToWatchlist chatId url site (price reading) (currencyText reading);
  sendMessage chat_id (ProductAdded (currencyText reading) (price reading)).

Definition addCommandWithUserState (chatId : Z) : M unit :=
  modify (λ w, set_userStates (<[chatId := awaiting_site_url]> (userStates w)) w);;
  sendMessage chatId SendProductInfo.

Definition removeCommand (chatId : Z) (id : jsstring) : M unit :=
  sendMessage chatId (Removing id);;
  changes ← removeFromWatchlist chatId (ArgText id);
  if bool_decide (0 < changes)%nat then sendMessage chatId (Removed id)
  else sendMessage chatId (NoProductFound id).

Definition removeCommandWithUserState (chatId : Z) : M unit :=
  sendMessage chatId SendId;;
  modify (λ w, set_userStates (<[chatId := awaiting_remove]> (userStates w)) w).

(** [msg.text.trim()] *)
Definition text_trim (msg : Telegram.Message) : M jsstring :=
  match Telegram.text msg with
  | Some t => mret (trim t)
  | None =>
      throw (TypeError (str "Cannot read properties of undefined (reading 'trim')"))
  end.

Definition handleUserStateForAddCommand (chatId : Z) (msg : Telegram.Message)
  : M unit :=
  text ← text_trim msg;
  let parts := split hyphen text in
  if bool_decide (length parts < 2)%nat then sendMessage chatId InvalidFormat
  else
    let site := trim (default [] (parts !! 0%nat)) in
    let url := trim (default [] (parts !! 1%nat)) in
    addCommand chatId site url.

Definition handleUserStateForRemoveCommand (chatId : Z) (msg : Telegram.Message)
  : M unit :=
  id ← text_trim msg;
  removeCommand chatId id.

(** The [default] case of the switch is out of reach of [Step]. *)
Definition listenToMessages (chatId : Z) (msg : Telegram.Message) : M unit :=
  w ← get;
  match userStates w !! chatId with
  | None => mret tt
  | Some state =>
      match state with
      | awaiting_site_url => handleUserStateForAddCommand chatId msg
      | awaiting_remove => handleUserStateForRemoveCommand chatId msg
      end;;
      modify (λ w, set_userStates (delete chatId (userStates w)) w)
  end.

End Commands.
End Commands.

Import Commands.

(* ===================================================================== *)
(** * src/@cron/schedule.js                                                *)
(* ===================================================================== *)

Module Schedule.
Section Schedule.
Context `{Outside}.

Definition prePriceCheck (item : Row) (price : number) (currency : jsstring)
  : M unit :=
  getBot;;
  if lt price (last_price item) then
    sendMessage (chat_id item)
      (PriceDrop (url item) (Runtime.currency item) (last_price item)
                 currency price)
  else mret tt.

Definition taskFunction (item : Row) : M unit :=
  try_catch
    (reading ← fetchPrice (url item) (site item);
     let price := price reading in
     let currencyText := currencyText reading in
     if falsy price || strict_eq price (last_price item) then mret tt
     else
       chatId ← updateWatchlist
         {| Update.id := id item; Update.lastPrice := price;
            Update.currency := currencyText |};
       prePriceCheck item price currencyText)
    (λ e,
       console_error_log
         [LogText (str "Error checking"); LogText (url item);
          LogText (message_of e)];;
       throw (Error (str "Something went wrong. Please try again."))).

(** [watchlist.forEach(async (item) => { await taskFunction(item); })]: one
    promise per item, which nothing awaits; the list holds how each of them
    settles.  The tasks are run to their end in the order of the list: two
    tasks meet only in the table, where each writes the row of its own
    [id]. *)
Fixpoint forEach (watchlist : list Row) (callback : Row → M unit)
  : M (list (Completion unit)) :=
  match watchlist with
  | [] => mret []
  | item :: rest => λ w,
      let '(settled, w') := callback item w in
      match forEach rest callback w' with
      | (Normal others, w'') => (Normal (settled :: others), w'')
      | (Throw e, w'') => (Throw e, w'')
      end
  end.

(** One firing of the callback [schedulePriceChecks] registers. *)
Definition firing : M (list (Completion unit)) :=
  watchlist ← getAllWatchlist;
  if bool_decide (length watchlist = 0%nat) then mret []
  else forEach watchlist taskFunction.

End Schedule.
End Schedule.

Import Schedule.

(* ===================================================================== *)
(** * Notions the statements use                                           *)
(* ===================================================================== *)

(** The rows of the table, none while the database is not opened. *)
Definition rows_of (w : World) : list Row :=
  from_option price_tracker [] (dbInstance w).

(** [id] is the primary key. *)
Definition primary_key (rows : list Row) : Prop := NoDup (id <$> rows).

(** A computation that leaves the session map as it is. *)
Definition keeps_sessions {A} (m : M A) : Prop :=
  ∀ w, userStates (m w).2 = userStates w.

(** Two rows for the same item of the same owner: what a price refresh
    keeps of a row. *)
Definition same_item (r r' : Row) : Prop :=
  id r' = id r ∧ chat_id r' = chat_id r ∧ url r' = url r ∧ site r' = site r.

(** The rows of an owner, in the order of the table. *)
Definition watchlist_of (owner : Z) (rows : list Row) : list Row :=
  filter (λ r, chat_id r = owner) rows.

(** The id [INSERT] gives the next row: one more than the largest id ever
    given ([AUTOINCREMENT]). *)
Definition next_id (db : Database) : Z :=
  Z.max (sqlite_sequence db) (max_id (price_tracker db)) + 1.

(** The messages a task may send for an item: a price drop, to the owner of
    the item, for a price below the stored one. *)
Definition drop_notice (item : Row) (m : Sent) : Prop :=
  ∃ currency price,
    lt price (last_price item) = true
    ∧ m = {| to := chat_id item;
             body := PriceDrop (url item) (Runtime.currency item)
                       (last_price item) currency price |}.

(** A computation that leaves the rows of every owner but [owner] as they
    are. *)
Definition keeps_other_owners {A} (owner : Z) (m : M A) : Prop :=
  ∀ w other, other ≠ owner →
    watchlist_of other (rows_of (m w).2) = watchlist_of other (rows_of w).

(** Rows a statement can return: no price among them is stored as an INTEGER
    beyond the safe range. *)
Definition readable (rows : list Row) : Prop :=
  Forall (λ r, too_large (last_price r) = false) rows.

(** A price the table gives back as it was bound: it is not stored as an
    INTEGER beyond the safe range, and it is not the negative zero, whose sign
    the table does not keep. *)
Definition read_back (x : number) : Prop :=
  too_large x = false ∧ x ≠ S754_zero true.

(** What a refused read leaves: the line of the [catch] on the console. *)
Definition query_failed (e : Exn) (w : World) : World :=
  set_console
    (console_error w ++ [[LogText (str "Something went wrong:"); LogExn e]]) w.

Section Notions.
Context `{Outside}.

(** What [fetchPrice] ends in; it leaves the process state alone. *)
Definition fetched (url site : jsstring) : Completion Reading :=
  match axios_get url with
  | Failed message => Throw (Error message)
  | Page data => pipeline site (classSelectors site) (load data)
  end.

(** The record [taskFunction] passes to [updateWatchlist] for a reading. *)
Definition update_of (item : Row) (reading : Reading) : Update.t :=
  {| Update.id := id item; Update.lastPrice := price reading;
     Update.currency := currencyText reading |}.

(** The guard of [taskFunction]. *)
Definition unchanged (item : Row) (reading : Reading) : bool :=
  falsy (price reading) || strict_eq (price reading) (last_price item).

(** The update a task asks of the store, if it asks one. *)
Definition task_update (item : Row) : option Update.t :=
  match fetched (url item) (site item) with
  | Normal reading =>
      if unchanged item reading then None else Some (update_of item reading)
  | Throw _ => None
  end.

Definition notification (item : Row) (reading : Reading) : Sent :=
  {| to := chat_id item;
     body := PriceDrop (url item) (currency item) (last_price item)
                       (currencyText reading) (price reading) |}.

(** The [catch] of [taskFunction]: what is logged, and the world after it. *)
Definition logged_failure (item : Row) (e : Exn) (w : World) : World :=
  set_console (console_error w ++
                 [[LogText (str "Error checking"); LogText (url item);
                   LogText (message_of e)]]) w.

Definition task_failure : Exn :=
  Error (str "Something went wrong. Please try again.").

(** The table after [UPDATE] with the record [u]. *)
Definition updated (u : Update.t) (db : Database) : Database :=
  {| price_tracker := set_price u <$> price_tracker db;
     sqlite_sequence := sqlite_sequence db |}.

(** What a task leaves of its own row. *)
Definition refresh (item : Row) : Row :=
  match task_update item with
  | Some u => set_price u item
  | None => item
  end.

(** The handler of a pending step. *)
Definition continuation (step : Step) (chatId : Z) (msg : Telegram.Message)
  : M unit :=
  match step with
  | awaiting_site_url => handleUserStateForAddCommand chatId msg
  | awaiting_remove => handleUserStateForRemoveCommand chatId msg
  end.

End Notions.

(* ===================================================================== *)
(** * A page and a table to run the code on                                *)
(* ===================================================================== *)

Module Fixture.

Definition amazon : Selector.t :=
  {| Selector.price := str "a-price-whole";
     Selector.currency := str "a-price-symbol" |}.

Definition span (class text : string) : Node :=
  Element (str "span") [str class] [Text (str text)].

(** A product page with a currency symbol and a price. *)
Definition product_page (price : string) : list Node :=
  [Element (str "div") [str "a-price"]
     [span "a-price-symbol" "Rs"; span "a-price-whole" price]].

(** The same page without the element of the currency. *)
Definition page_without_currency (price : string) : list Node :=
  [Element (str "div") [str "a-price"] [span "a-price-whole" price]].

(** A text of decimal digits read as an integer. *)
Definition decimal (s : jsstring) : option Z :=
  match span_digits s with
  | (d :: ds, []) => Some (Z.of_N (digits_value (d :: ds)))
  | _ => None
  end.

(** The pages that can be fetched, by URL; any other request fails. *)
Fixpoint serve (web : list (string * list Node)) (url : jsstring) : Response :=
  match web with
  | [] => Failed (str "getaddrinfo ENOTFOUND")
  | (u, data) :: web' =>
      if bool_decide (str u = url) then Page data else serve web' url
  end.

Definition outside (web : list (string * list Node)) : Outside :=
  {| classSelectors := λ site,
       if bool_decide (site = str "amazon") then Some amazon else None;
     axios_get := serve web;
     integer_of_text := decimal;
     out_of_range := λ value,
       str "Value is too large to be represented as a JavaScript number: "
       ++ str (pretty value) |}.

Definition row (id chat_id : Z) (url : string) (last_price : Z) : Row :=
  {| Runtime.id := id; Runtime.chat_id := chat_id; Runtime.url := str url;
     Runtime.site := str "amazon"; Runtime.last_price := of_Z last_price;
     Runtime.currency := str "Rs" |}.

Definition world (rows : list Row) (states : list (Z * Step)) : World :=
  {| dbInstance :=
       Some {| price_tracker := rows; sqlite_sequence := max_id rows |};
     botInstance := Some [];
     userStates := list_to_map states;
     console_error := [] |}.

End Fixture.

(** ** The polling task on concrete pages *)

Module PollingExamples.

Definition shop (n : string) : string := "https://shop.example/" +:+ n.

(** One item stored at 100, and the price its page shows. *)
Definition item : Row := Fixture.row 1 42 (shop "1") 100.
Definition showing (price : string) : Outside :=
  Fixture.outside [(shop "1", Fixture.product_page price)].
Definition world : World := Fixture.world [item] [].

(** Three items stored at 100; the page of the second cannot be fetched. *)
Definition watchlist : list Row :=
  [Fixture.row 1 42 (shop "1") 100; Fixture.row 2 42 (shop "2") 100;
   Fixture.row 3 43 (shop "3") 100].
Definition second_unreachable : Outside :=
  Fixture.outside [(shop "1", Fixture.product_page "90");
                   (shop "3", Fixture.product_page "1,080.00")].

End PollingExamples.

Import PollingExamples.

(** ** The conversation on concrete messages *)

Module ConversationExamples.

Definition page_url : string := "https://shop.example/1".

(** One page on the web, an empty table, and owner 42 asked for the add
    payload. *)
Definition web : Outside :=
  Fixture.outside [(page_url, Fixture.product_page "499")].
Definition awaiting_add : World := Fixture.world [] [(42, awaiting_site_url)].

Definition message (text : string) : Telegram.Message :=
  {| Telegram.text := Some (str text) |}.

End ConversationExamples.

Import ConversationExamples.

(** ** More states to run the code on *)

Module MoreExamples.

(** The table of the three-item watchlist. *)
Definition three_rows : Database :=
  {| price_tracker := watchlist; sqlite_sequence := 3 |}.
Definition three_items : World := Fixture.world watchlist [].

(** A process whose database is not opened yet, and one without bot. *)
Definition not_opened : World :=
  {| dbInstance := None; botInstance := Some []; userStates := ∅;
     console_error := [] |}.
Definition no_bot : World :=
  {| dbInstance := None; botInstance := None; userStates := ∅;
     console_error := [] |}.

(** The three items, owner 42 asked for an id to remove and owner 43 for an
    add payload. *)
Definition two_sessions : World :=
  Fixture.world watchlist [(42, awaiting_remove); (43, awaiting_site_url)].

(** A page with a currency symbol and no price. *)
Definition page_without_price : list Node :=
  [Element (str "div") [str "a-price"] [Fixture.span "a-price-symbol" "Rs"]].

(** No page can be fetched. *)
Definition offline : Outside := Fixture.outside [].

(** Two items, the second stored at 2^53. *)
Definition unsafe_rows : list Row :=
  [Fixture.row 1 42 (shop "1") 100;
   Fixture.row 2 43 (shop "2") 9007199254740992].

End MoreExamples.

Import MoreExamples.

(* ===================================================================== *)
(** * Extraction                                                           *)
(* ===================================================================== *)

Section Extraction.
Context `{Outside}.

Lemma strip_punctuation_spec (s : jsstring) (c : N) :
  c ∈ strip_punctuation s ↔ c ∈ s ∧ c ≠ comma ∧ c ≠ full_stop.
Proof. unfold strip_punctuation. rewrite list_elem_of_filter. tauto. Qed.

Lemma strip_punctuation_sublist (s : jsstring) : strip_punctuation s `sublist_of` s.
Proof. apply sublist_filter. Qed.

Lemma truthy_string_true (s : jsstring) : s ≠ [] → truthy_string s = true.
Proof. destruct s; [congruence | reflexivity]. Qed.

(** The currency of a reading is the text of the first match of the currency
    selector, whatever it is; the initial value of [currencyText] is
    overwritten before it is read. *)
Lemma getAmazonPrice_currencyText selector dollar reading :
  getAmazonPrice (Some selector) dollar = Normal reading →
  currencyText reading
  = text (first (dollar (str "." ++ Selector.currency selector))).
Proof. unfold getAmazonPrice. intros [= <-]. reflexivity. Qed.

Lemma getAmazonPrice_no_currency_element selector dollar reading :
  dollar (str "." ++ Selector.currency selector) = [] →
  getAmazonPrice (Some selector) dollar = Normal reading →
  currencyText reading = [].
Proof.
  intros Hnone Hget. rewrite (getAmazonPrice_currencyText _ _ _ Hget), Hnone.
  reflexivity.
Qed.

(** C6, on the code: a page in which no element has the class of the
    currency, read with the selectors of [Fixture.amazon].  The reading
    carries the empty string as its currency, not the fallback symbol the
    function starts from. *)
Theorem getAmazonPrice_missing_currency_is_empty :
  let dollar := load (Fixture.page_without_currency "1,299.00") in
  dollar (str "." ++ Selector.currency Fixture.amazon) = []
  ∧ getAmazonPrice (Some Fixture.amazon) dollar
    = Normal {| price := of_Z 129900; currencyText := [] |}
  ∧ [] ≠ fallback_currency.
Proof. vm_compute. repeat split; congruence. Qed.

(** C7, amended: on the registered site, when the text of the first match of
    the price selector is not empty once its commas and full stops are
    removed, the price of the reading is [parseFloat] of that stripped text;
    the stripped text is the text without exactly its commas and full
    stops. *)
Theorem pipeline_price_is_parsed_stripped_text selector dollar :
  let priceText := text (first (dollar (str "." ++ Selector.price selector))) in
  strip_punctuation priceText ≠ [] →
  (∀ c, c ∈ strip_punctuation priceText
        ↔ c ∈ priceText ∧ c ≠ comma ∧ c ≠ full_stop)
  ∧ pipeline (str "amazon") (Some selector) dollar
    = Normal {| price := parseFloat (strip_punctuation priceText);
                currencyText :=
                  text (first (dollar (str "." ++ Selector.currency selector))) |}.
Proof.
  intros priceText Hne. split; [apply strip_punctuation_spec |].
  unfold pipeline. rewrite bool_decide_eq_true_2 by reflexivity.
  unfold getAmazonPrice. fold priceText.
  rewrite (truthy_string_true _ Hne). reflexivity.
Qed.

(** C8: a site other than the one case of the switch makes [pipeline], and
    with it [fetchPrice] of a page that was fetched, throw "Unsupported
    site", whatever the selector and the page; a reading is returned for the
    site of that case only. *)
Theorem pipeline_unsupported_site (site : jsstring) :
  site ≠ str "amazon" →
  (∀ selector dollar,
     pipeline site selector dollar = Throw (Error (str "Unsupported site")))
  ∧ (∀ url data w,
       axios_get url = Page data →
       fetchPrice url site w = (Throw (Error (str "Unsupported site")), w))
  ∧ (∀ site' selector dollar reading,
       pipeline site' selector dollar = Normal reading → site' = str "amazon").
Proof.
  intros Hsite. split; [| split].
  - intros selector dollar. unfold pipeline.
    rewrite bool_decide_eq_false_2 by assumption. reflexivity.
  - intros url data w Hpage. unfold fetchPrice. rewrite Hpage.
    unfold lift, pipeline. rewrite bool_decide_eq_false_2 by assumption.
    reflexivity.
  - intros site' selector dollar reading. unfold pipeline.
    case_bool_decide; [auto | discriminate].
Qed.

End Extraction.

(** C7, at the price text "1,299.00": the price read is 129900. *)
Lemma pipeline_price_is_parsed_stripped_text_witness :
  let dollar := load (Fixture.product_page "1,299.00") in
  text (first (dollar (str "." ++ Selector.price Fixture.amazon)))
  = str "1,299.00"
  ∧ strip_punctuation (str "1,299.00") = str "129900"
  ∧ pipeline (str "amazon") (Some Fixture.amazon) dollar
    = Normal {| price := of_Z 129900; currencyText := str "Rs" |}.
Proof.
  intros dollar. split; [reflexivity | split; [reflexivity |]].
  refine (eq_trans
    (proj2 (pipeline_price_is_parsed_stripped_text Fixture.amazon dollar _)) _).
  - vm_compute. discriminate.
  - vm_compute. reflexivity.
Defined.

(** C7 as stated fails on a price text that is not empty but holds
    punctuation only: nothing is parsed, the price keeps its initial 0, while
    [parseFloat] of the stripped text is NaN. *)
Lemma price_text_of_punctuation_only_is_not_parsed :
  let dollar := load (Fixture.product_page ".") in
  let priceText :=
    text (first (dollar (str "." ++ Selector.price Fixture.amazon))) in
  priceText = str "." ∧ priceText ≠ []
  ∧ pipeline (str "amazon") (Some Fixture.amazon) dollar
    = Normal {| price := of_Z 0; currencyText := str "Rs" |}
  ∧ parseFloat (strip_punctuation priceText) = NaN
  ∧ of_Z 0 ≠ parseFloat (strip_punctuation priceText).
Proof. vm_compute. repeat split; discriminate. Qed.

(** C8, at the site "flipkart" and a page that does carry a price. *)
Lemma pipeline_unsupported_site_witness :
  let O := Fixture.outside [("https://shop.example/p", Fixture.product_page "499")] in
  str "flipkart" ≠ str "amazon"
  ∧ pipeline (str "flipkart") (Some Fixture.amazon)
      (load (Fixture.product_page "499"))
    = Throw (Error (str "Unsupported site"))
  ∧ ∀ w, fetchPrice (str "https://shop.example/p") (str "flipkart") w
         = (Throw (Error (str "Unsupported site")), w).
Proof.
  intros O.
  assert (Hne : str "flipkart" ≠ str "amazon") by (vm_compute; discriminate).
  destruct (pipeline_unsupported_site (str "flipkart") Hne) as (Hp & Hf & _).
  split; [exact Hne | split; [apply Hp |]].
  intros w. apply (Hf _ (Fixture.product_page "499")). reflexivity.
Defined.

(* ===================================================================== *)
(** * The watchlist store                                                  *)
(* ===================================================================== *)

Section Store.
Context `{Outside}.

Lemma removeFromWatchlist_run w db owner arg :
  dbInstance w = Some db →
  removeFromWatchlist owner arg w
  = (Normal (length (filter (λ r, chat_id r = owner ∧ id_is arg r)
                            (price_tracker db))),
     set_db {| price_tracker :=
                 filter (λ r, ¬ (chat_id r = owner ∧ id_is arg r))
                        (price_tracker db);
               sqlite_sequence := sqlite_sequence db |} w).
Proof.
  intros Hdb. unfold removeFromWatchlist, mbind, M_bind, getInstance.
  rewrite Hdb. reflexivity.
Qed.

Lemma clearAll_run w db owner :
  dbInstance w = Some db →
  clearAll owner w
  = (Normal (length (filter (λ r, chat_id r = owner) (price_tracker db))),
     set_db {| price_tracker :=
                 filter (λ r, ¬ chat_id r = owner) (price_tracker db);
               sqlite_sequence := sqlite_sequence db |} w).
Proof.
  intros Hdb. unfold clearAll, mbind, M_bind, getInstance.
  rewrite Hdb. reflexivity.
Qed.

(** Deleting the rows that satisfy [P] keeps the rows that satisfy [Q] when
    no row satisfies both. *)
Lemma filter_frame {A} (P Q : A → Prop) `{∀ x, Decision (P x)}
    `{∀ x, Decision (Q x)} (l : list A) :
  (∀ x, Q x → ¬ P x) →
  filter Q (filter (λ x, ¬ P x) l) = filter Q l.
Proof.
  intros HQP. induction l as [| x l IH]; [reflexivity |].
  rewrite (filter_cons (λ x, ¬ P x)), (filter_cons Q x l).
  destruct (decide (¬ P x)) as [Hn | Hn].
  - rewrite filter_cons, IH. reflexivity.
  - rewrite IH. destruct (decide (Q x)) as [Hq | Hq]; [| reflexivity].
    exfalso. apply Hn, HQP, Hq.
Qed.

Lemma length_filter_complement {A} (P : A → Prop) `{∀ x, Decision (P x)}
    (l : list A) :
  (length l = length (filter (λ x, ¬ P x) l) + length (filter P l))%nat.
Proof.
  rewrite <- (Permutation_length (filter_app_complement P l)) at 1.
  rewrite length_app. lia.
Qed.

(** Rows that all carry one key are at most one, under the primary key. *)
Lemma same_key_at_most_one (rows : list Row) (P : Row → Prop)
    `{∀ r, Decision (P r)} (z : Z) :
  primary_key rows → (∀ r, P r → id r = z) → (length (filter P rows) ≤ 1)%nat.
Proof.
  unfold primary_key. intros Hkey Hz.
  induction rows as [| r rows IH]; [simpl; lia |].
  rewrite fmap_cons in Hkey. apply NoDup_cons in Hkey as [Hr Hkey].
  rewrite filter_cons. destruct (decide (P r)) as [Hp | Hp]; [| auto].
  assert (Hnone : filter P rows = []).
  { destruct (filter P rows) as [| r' l] eqn:Hf; [reflexivity |].
    exfalso. apply Hr.
    assert (Hin : r' ∈ filter P rows) by (rewrite Hf; left).
    apply list_elem_of_filter in Hin as [Hp' Hin].
    rewrite (Hz r Hp), <- (Hz r' Hp'). apply list_elem_of_fmap_2, Hin. }
  rewrite Hnone. simpl. lia.
Qed.

(** C10: on an opened database, [removeFromWatchlist owner id] returns the
    number of rows of [owner] with that [id] and leaves exactly the other
    rows, [clearAll owner] returns the number of rows of [owner] and leaves
    exactly the rows of the others; neither changes a row of another owner;
    under the primary key [removeFromWatchlist] deletes at most one row. *)
Theorem delete_only_own_rows (w : World) (db : Database) (owner : Z)
    (arg : SqlArg) :
  dbInstance w = Some db →
  let rows := price_tracker db in
  let doomed r := chat_id r = owner ∧ id_is arg r in
  let mine r := chat_id r = owner in
  let removed := removeFromWatchlist owner arg w in
  let cleared := clearAll owner w in
  (removed.1 = Normal (length (filter doomed rows))
   ∧ rows_of removed.2 = filter (λ r, ¬ doomed r) rows
   ∧ (∀ r, r ∈ rows_of removed.2 ↔ r ∈ rows ∧ ¬ doomed r)
   ∧ (∀ other, other ≠ owner →
        filter (λ r, chat_id r = other) (rows_of removed.2)
        = filter (λ r, chat_id r = other) rows)
   ∧ (length rows = length (rows_of removed.2) + length (filter doomed rows))%nat
   ∧ (primary_key rows → (length (filter doomed rows) ≤ 1)%nat))
  ∧ (cleared.1 = Normal (length (filter mine rows))
     ∧ rows_of cleared.2 = filter (λ r, ¬ mine r) rows
     ∧ (∀ r, r ∈ rows_of cleared.2 ↔ r ∈ rows ∧ ¬ mine r)
     ∧ (∀ other, other ≠ owner →
          filter (λ r, chat_id r = other) (rows_of cleared.2)
          = filter (λ r, chat_id r = other) rows)
     ∧ (length rows = length (rows_of cleared.2) + length (filter mine rows))%nat).
Proof.
  intros Hdb rows doomed mine removed cleared.
  subst removed cleared.
  rewrite (removeFromWatchlist_run _ _ _ _ Hdb), (clearAll_run _ _ _ Hdb).
  unfold rows_of. simpl. fold rows.
  split; split_and!.
  - reflexivity.
  - reflexivity.
  - intros r. rewrite list_elem_of_filter. unfold doomed. tauto.
  - intros other Hother. apply filter_frame.
    intros r Hr [Hm _]. congruence.
  - apply (length_filter_complement doomed rows).
  - intros Hkey. destruct arg as [z | s].
    + apply (same_key_at_most_one rows doomed z Hkey). intros r [_ Hr]. exact Hr.
    + destruct (integer_of_text s) as [z |] eqn:Hs.
      * apply (same_key_at_most_one rows doomed z Hkey).
        intros r [_ Hr]. simpl in Hr. congruence.
      * assert (Hnone : filter doomed rows = []).
        { destruct (filter doomed rows) as [| r l] eqn:Hf; [reflexivity |].
          assert (Hin : r ∈ filter doomed rows) by (rewrite Hf; left).
          apply list_elem_of_filter in Hin as [[_ Hr] _].
          simpl in Hr. congruence. }
        rewrite Hnone. simpl. lia.
  - reflexivity.
  - reflexivity.
  - intros r. rewrite list_elem_of_filter. unfold mine. tauto.
  - intros other Hother. apply filter_frame.
    intros r Hr Hm. unfold mine in Hm. congruence.
  - apply (length_filter_complement mine rows).
Qed.

(** ** Reading rows *)

Lemma read_row_readable r :
  too_large (last_price r) = false → read_row r = Normal r.
Proof.
  unfold too_large, read_row, MAX_SAFE_INTEGER.
  destruct (stored_integer (last_price r)) as [z |]; [| reflexivity].
  intros Hz. apply bool_decide_eq_false in Hz.
  rewrite bool_decide_eq_true_2 by lia. reflexivity.
Qed.

Lemma read_row_refused r :
  too_large (last_price r) = true →
  ∃ z, stored_integer (last_price r) = Some z
       ∧ MAX_SAFE_INTEGER < Z.abs z
       ∧ read_row r = Throw (RangeError (out_of_range z)).
Proof.
  unfold too_large, read_row.
  destruct (stored_integer (last_price r)) as [z |]; [| discriminate].
  intros Hz. apply bool_decide_eq_true in Hz. exists z.
  rewrite bool_decide_eq_false_2 by lia. auto.
Qed.

Lemma select_all_readable rows : readable rows → select_all rows = Normal rows.
Proof.
  induction 1 as [| r rows Hr _ IH]; [reflexivity |]. simpl.
  rewrite (read_row_readable _ Hr), IH. reflexivity.
Qed.

Lemma select_all_refused rows :
  ¬ readable rows → ∃ message, select_all rows = Throw (RangeError message).
Proof.
  induction rows as [| r rows IH]; intros Hno.
  - destruct Hno. constructor.
  - simpl. destruct (too_large (last_price r)) eqn:Hr.
    + destruct (read_row_refused _ Hr) as (z & _ & _ & ->). eauto.
    + rewrite (read_row_readable _ Hr).
      destruct IH as [message ->]; [| eauto].
      intros Hrows. apply Hno. by constructor.
Qed.

Lemma readable_dec rows : readable rows ∨ ¬ readable rows.
Proof. destruct (decide (readable rows)); auto. Qed.

Lemma readable_sublist rows rows' :
  rows' `sublist_of` rows → readable rows → readable rows'.
Proof.
  unfold readable. rewrite !Forall_forall. intros Hsub Hrows r Hr.
  apply Hrows. eapply elem_of_sublist; [exact Hr | exact Hsub].
Qed.

Lemma getWatchlist_run w db chatId :
  dbInstance w = Some db →
  readable (filter (λ r, chat_id r = chatId) (price_tracker db)) →
  getWatchlist chatId w
  = (Normal (filter (λ r, chat_id r = chatId) (price_tracker db)), w).
Proof.
  intros Hdb Hread. unfold getWatchlist, getInstance, try_catch, lift, mbind,
    M_bind.
  rewrite Hdb, (select_all_readable _ Hread). reflexivity.
Qed.

Lemma getWatchlist_refused w db chatId message :
  dbInstance w = Some db →
  select_all (filter (λ r, chat_id r = chatId) (price_tracker db))
  = Throw (RangeError message) →
  getWatchlist chatId w
  = (Throw (Error (str "Database query failed")),
     query_failed (RangeError message) w).
Proof.
  intros Hdb Hread. unfold getWatchlist, getInstance, try_catch, lift, mbind,
    M_bind.
  rewrite Hdb, Hread. reflexivity.
Qed.

Lemma getAllWatchlist_run w db :
  dbInstance w = Some db →
  readable (price_tracker db) →
  getAllWatchlist w = (Normal (price_tracker db), w).
Proof.
  intros Hdb Hread. unfold getAllWatchlist, getInstance, try_catch, lift,
    mbind, M_bind.
  rewrite Hdb, (select_all_readable _ Hread). reflexivity.
Qed.

Lemma getAllWatchlist_refused w db message :
  dbInstance w = Some db →
  select_all (price_tracker db) = Throw (RangeError message) →
  getAllWatchlist w
  = (Throw (Error (str "Database query failed")),
     query_failed (RangeError message) w).
Proof.
  intros Hdb Hread. unfold getAllWatchlist, getInstance, try_catch, lift,
    mbind, M_bind.
  rewrite Hdb, Hread. reflexivity.
Qed.

End Store.

(** The refused prices are the integers from 2^53 on, in magnitude, that the
    column keeps as an INTEGER; from 2^63 on a price is kept as a REAL. *)
Example too_large_range :
  too_large (of_Z (2 ^ 53 - 1)) = false
  ∧ too_large (of_Z (2 ^ 53)) = true
  ∧ too_large (of_Z (- 2 ^ 53)) = true
  ∧ too_large (parseFloat (str "9007199254740993.5")) = true
  ∧ too_large (of_Z (2 ^ 63)) = false
  ∧ too_large (parseFloat (str "1299.5")) = false.
Proof. vm_compute. repeat split; reflexivity. Qed.

(** C10, at a table with two rows of owner 42 and one of owner 43: the
    removal of id 2 by owner 42 deletes that row only, the removal of id 3 by
    owner 42 deletes nothing (the row is another owner's), and clearing owner
    42 leaves the row of owner 43. *)
Lemma delete_only_own_rows_witness :
  let O := Fixture.outside [] in
  let r1 := Fixture.row 1 42 "https://shop.example/1" 100 in
  let r2 := Fixture.row 2 42 "https://shop.example/2" 100 in
  let r3 := Fixture.row 3 43 "https://shop.example/3" 100 in
  let w := Fixture.world [r1; r2; r3] [] in
  ((removeFromWatchlist 42 (ArgNumber 2) w).1 = Normal 1%nat
   ∧ rows_of (removeFromWatchlist 42 (ArgNumber 2) w).2 = [r1; r3])
  ∧ ((removeFromWatchlist 42 (ArgNumber 3) w).1 = Normal 0%nat
     ∧ rows_of (removeFromWatchlist 42 (ArgNumber 3) w).2 = [r1; r2; r3])
  ∧ ((clearAll 42 w).1 = Normal 2%nat
     ∧ rows_of (clearAll 42 w).2 = [r3]).
Proof.
  intros O r1 r2 r3 w.
  pose (db := {| price_tracker := [r1; r2; r3]; sqlite_sequence := 3 |}).
  destruct (delete_only_own_rows (H := O) w db 42 (ArgNumber 2) eq_refl)
    as ((Hn2 & Hrows2 & _) & (Hn & Hrows & _)).
  destruct (delete_only_own_rows (H := O) w db 42 (ArgNumber 3) eq_refl)
    as ((Hn3 & Hrows3 & _) & _).
  exact (conj (conj Hn2 Hrows2) (conj (conj Hn3 Hrows3) (conj Hn Hrows))).
Defined.

(* ===================================================================== *)
(** * The polling task                                                     *)
(* ===================================================================== *)

(** ** Comparisons of numbers *)

Lemma strict_eq_refl (x : number) : is_nan x = false → strict_eq x x = true.
Proof.
  unfold strict_eq, SFeqb. destruct x as [s | s | | s m e]; simpl;
    try discriminate; intros _.
  - reflexivity.
  - destruct s; reflexivity.
  - rewrite Z.compare_refl, Pos.compare_cont_refl. destruct s; reflexivity.
Qed.

Lemma lt_not_strict_eq (x y : number) : lt x y = true → strict_eq x y = false.
Proof.
  unfold lt, strict_eq, SFltb, SFeqb.
  destruct (SFcompare x y) as [[| |] |]; congruence.
Qed.

Lemma compare_cont_Eq_antisym (m1 m2 : positive) :
  Pos.compare_cont Eq m2 m1 = CompOpp (Pos.compare_cont Eq m1 m2).
Proof. symmetry. apply (Pos.compare_cont_antisym m1 m2 Eq). Qed.

Lemma SFcompare_antisym (x y : number) :
  SFcompare y x = option_map CompOpp (SFcompare x y).
Proof.
  destruct x as [sx | sx | | sx mx ex], y as [sy | sy | | sy my ey]; simpl;
    try reflexivity; try (destruct sx; reflexivity);
    try (destruct sy; reflexivity); try (destruct sx, sy; reflexivity).
  rewrite (Z.compare_antisym ex ey), compare_cont_Eq_antisym.
  destruct sx, sy, (ex ?= ey), (Pos.compare_cont Eq mx my); reflexivity.
Qed.

Lemma lt_asym (x y : number) : lt x y = true → lt y x = false.
Proof.
  unfold lt, SFltb. rewrite (SFcompare_antisym x y).
  destruct (SFcompare x y) as [[| |] |]; simpl; congruence.
Qed.

Lemma falsy_not_nan (x : number) : falsy x = false → is_nan x = false.
Proof. destruct x; simpl; congruence. Qed.

(** ** One task *)

Section Polling.
Context `{Outside}.

Lemma fetchPrice_run url site w : fetchPrice url site w = (fetched url site, w).
Proof. unfold fetchPrice, fetched. destruct (axios_get url); reflexivity. Qed.

Lemma updateWatchlist_run u w db :
  dbInstance w = Some db →
  is_nan (Update.lastPrice u) = false →
  updateWatchlist u w
  = match head (filter (λ r, id r = Update.id u) (price_tracker db)) with
    | Some r => (Normal (chat_id r), set_db (updated u db) w)
    | None =>
        (Throw (Error (str "Database update failed")),
         set_console
           (console_error w ++
              [[LogText (str "Something went wrong:");
                LogExn (TypeError (str "Cannot destructure property 'chat_id' of 'update.get(...)' as it is undefined."))]])
           (set_db (updated u db) w))
    end.
Proof.
  intros Hdb Hnan.
  unfold updateWatchlist, getInstance, try_catch, mbind, M_bind.
  rewrite Hdb, Hnan. simpl.
  destruct (head _); reflexivity.
Qed.

Lemma updateWatchlist_closed u w :
  dbInstance w = None →
  updateWatchlist u w = (Throw (Error (str "Database not initialized!")), w).
Proof.
  intros Hdb. unfold updateWatchlist, getInstance, mbind, M_bind.
  rewrite Hdb. reflexivity.
Qed.

Lemma prePriceCheck_run item price currency w :
  prePriceCheck item price currency w
  = match botInstance w with
    | None => (Throw (Error (str "Telegram bot not initialized!")), w)
    | Some outbox =>
        if lt price (last_price item) then
          (Normal tt,
           set_bot (outbox ++
                      [{| to := chat_id item;
                          body := PriceDrop (url item) (Runtime.currency item)
                                    (last_price item) currency price |}]) w)
        else (Normal tt, w)
    end.
Proof.
  unfold prePriceCheck, getBot, sendMessage, mbind, M_bind.
  destruct (botInstance w) eqn:Hbot; [| reflexivity].
  destruct (lt price (last_price item)); [| reflexivity].
  rewrite Hbot. reflexivity.
Qed.

(** A task whose fetch or extraction throws logs the failure and throws in
    its turn. *)
Lemma taskFunction_fetch_throws item e w :
  fetched (url item) (site item) = Throw e →
  taskFunction item w = (Throw task_failure, logged_failure item e w).
Proof.
  intros Hf. unfold taskFunction, try_catch, mbind, M_bind.
  rewrite fetchPrice_run, Hf. reflexivity.
Qed.

(** A task whose reading passes the guard returns at once. *)
Lemma taskFunction_unchanged item reading w :
  fetched (url item) (site item) = Normal reading →
  unchanged item reading = true →
  taskFunction item w = (Normal tt, w).
Proof.
  intros Hf Hg. unfold taskFunction, try_catch, mbind, M_bind.
  rewrite fetchPrice_run, Hf. unfold unchanged in Hg. rewrite Hg. reflexivity.
Qed.

(** A task whose reading does not pass the guard updates the store, then
    runs [prePriceCheck]; what either throws is caught, logged and thrown
    again. *)
Lemma taskFunction_changed item reading w :
  fetched (url item) (site item) = Normal reading →
  unchanged item reading = false →
  taskFunction item w
  = match updateWatchlist (update_of item reading) w with
    | (Normal _, w1) =>
        match prePriceCheck item (price reading) (currencyText reading) w1 with
        | (Normal _, w2) => (Normal tt, w2)
        | (Throw e, w2) => (Throw task_failure, logged_failure item e w2)
        end
    | (Throw e, w1) => (Throw task_failure, logged_failure item e w1)
    end.
Proof.
  intros Hf Hg. unfold taskFunction, try_catch, mbind, M_bind.
  rewrite fetchPrice_run, Hf. unfold unchanged in Hg. rewrite Hg.
  fold (update_of item reading).
  destruct (updateWatchlist _ w) as [[chatId | e] w1]; [| reflexivity].
  destruct (prePriceCheck _ _ _ w1) as [[[] | e] w2]; reflexivity.
Qed.

(** The table after a task: the update of the task, if it asks one, applied
    to every row. *)
Lemma taskFunction_rows item w :
  rows_of (taskFunction item w).2
  = match task_update item with
    | Some u => set_price u <$> rows_of w
    | None => rows_of w
    end.
Proof.
  unfold task_update.
  destruct (fetched (url item) (site item)) as [reading | e] eqn:Hf.
  - destruct (unchanged item reading) eqn:Hg.
    + rewrite (taskFunction_unchanged _ _ _ Hf Hg). reflexivity.
    + rewrite (taskFunction_changed _ _ _ Hf Hg).
      apply orb_false_elim in Hg as [Hfalsy _].
      apply falsy_not_nan in Hfalsy.
      unfold rows_of. destruct (dbInstance w) as [db |] eqn:Hdb.
      * rewrite (updateWatchlist_run (update_of item reading) _ _ Hdb Hfalsy).
        destruct (head _) as [r |]; [| reflexivity].
        rewrite prePriceCheck_run. simpl.
        destruct (botInstance w); [| reflexivity].
        destruct (lt _ _); reflexivity.
      * rewrite (updateWatchlist_closed _ _ Hdb). simpl. rewrite Hdb.
        reflexivity.
  - rewrite (taskFunction_fetch_throws _ _ _ Hf). reflexivity.
Qed.

(** C1, amended: when the reading of an item carries a price that is
    neither zero nor NaN and that differs from the stored [last_price], the
    task runs the update of the store with the new price and the new
    currency: every row of the item's [id] then holds them, the other rows
    are as before.  A price that is zero or NaN is not written: the task
    returns with the process state as it was. *)
Theorem taskFunction_persists_changed_nonzero_price item reading w db :
  dbInstance w = Some db →
  fetchPrice (url item) (site item) w = (Normal reading, w) →
  let record :=
    {| Update.id := id item; Update.lastPrice := price reading;
       Update.currency := currencyText reading |} in
  let after := (taskFunction item w).2 in
  (falsy (price reading) = false →
   strict_eq (price reading) (last_price item) = false →
   dbInstance after
   = Some {| price_tracker := set_price record <$> price_tracker db;
             sqlite_sequence := sqlite_sequence db |}
   ∧ (∀ r, r ∈ price_tracker db → id r = id item →
        ∃ r', r' ∈ rows_of after ∧ id r' = id r ∧ chat_id r' = chat_id r
              ∧ url r' = url r ∧ site r' = site r
              ∧ last_price r' = price reading
              ∧ currency r' = currencyText reading)
   ∧ (∀ r, r ∈ price_tracker db → id r ≠ id item → r ∈ rows_of after))
  ∧ (falsy (price reading) = true → taskFunction item w = (Normal tt, w)).
Proof.
  intros Hdb Hfetch record after.
  rewrite fetchPrice_run in Hfetch. injection Hfetch as Hf.
  split.
  - intros Hfalsy Hne.
    assert (Hg : unchanged item reading = false)
      by (unfold unchanged; rewrite Hfalsy, Hne; reflexivity).
    assert (Hafter : dbInstance after = Some (updated record db)).
    { subst after. rewrite (taskFunction_changed _ _ _ Hf Hg).
      rewrite (updateWatchlist_run (update_of item reading) _ _ Hdb
                 (falsy_not_nan _ Hfalsy)).
      destruct (head _) as [r |]; [| reflexivity].
      rewrite prePriceCheck_run. simpl.
      destruct (botInstance w); [| reflexivity].
      destruct (lt _ _); reflexivity. }
    split; [exact Hafter |].
    unfold rows_of. rewrite Hafter. simpl. split.
    + intros r Hin Hid. exists (set_price record r).
      split; [apply list_elem_of_fmap_2, Hin |].
      unfold set_price. simpl. rewrite bool_decide_eq_true_2 by exact Hid.
      simpl. auto 10.
    + intros r Hin Hid. apply list_elem_of_fmap. exists r. split; [| exact Hin].
      unfold set_price. simpl. rewrite bool_decide_eq_false_2 by exact Hid.
      reflexivity.
  - intros Hfalsy. apply (taskFunction_unchanged _ _ _ Hf).
    unfold unchanged. rewrite Hfalsy. reflexivity.
Qed.

(** C2, amended: for an item of the opened store, with the bot created, the
    task sends the price-drop message exactly when the price read is neither
    zero nor NaN and is less than the stored [last_price]; a higher price is
    written to the store and nothing is sent; an equal price changes nothing,
    and neither does a price that is zero or NaN. *)
Theorem taskFunction_notifies_iff_nonzero_drop item reading w db outbox :
  dbInstance w = Some db →
  botInstance w = Some outbox →
  item ∈ price_tracker db →
  fetchPrice (url item) (site item) w = (Normal reading, w) →
  let after := (taskFunction item w).2 in
  sent after
  = sent w ++
      (if negb (falsy (price reading)) && lt (price reading) (last_price item)
       then [{| to := chat_id item;
                body := PriceDrop (url item) (currency item) (last_price item)
                          (currencyText reading) (price reading) |}]
       else [])
  ∧ (falsy (price reading) = false →
     lt (last_price item) (price reading) = true →
     sent after = sent w
     ∧ rows_of after
       = set_price {| Update.id := id item; Update.lastPrice := price reading;
                      Update.currency := currencyText reading |}
           <$> price_tracker db)
  ∧ (strict_eq (price reading) (last_price item) = true → after = w)
  ∧ (falsy (price reading) = true → after = w).
Proof.
  intros Hdb Hbot Hin Hfetch after.
  rewrite fetchPrice_run in Hfetch. injection Hfetch as Hf.
  assert (Hhead : ∃ r, head (filter (λ r, id r = id item) (price_tracker db))
                       = Some r).
  { destruct (filter _ _) as [| r l] eqn:Hfilter; [| eauto].
    exfalso. eapply (filter_nil_not_elem_of _ _ item Hfilter); eauto. }
  destruct Hhead as [r Hr].
  assert (Hrun : unchanged item reading = false →
                 after
                 = if lt (price reading) (last_price item) then
                     set_bot (outbox ++ [notification item reading])
                       (set_db (updated (update_of item reading) db) w)
                   else set_db (updated (update_of item reading) db) w).
  { intros Hg. subst after. rewrite (taskFunction_changed _ _ _ Hf Hg).
    apply orb_false_elim in Hg as [Hfalsy _].
    rewrite (updateWatchlist_run (update_of item reading) _ _ Hdb
               (falsy_not_nan _ Hfalsy)).
    simpl. rewrite Hr, prePriceCheck_run. simpl. rewrite Hbot.
    destruct (lt _ _); reflexivity. }
  assert (Hquiet : unchanged item reading = true → after = w).
  { intros Hg. subst after. rewrite (taskFunction_unchanged _ _ _ Hf Hg).
    reflexivity. }
  split_and!.
  - destruct (unchanged item reading) eqn:Hg.
    + rewrite (Hquiet eq_refl). unfold unchanged in Hg.
      destruct (falsy (price reading)); simpl; [by rewrite app_nil_r |].
      simpl in Hg. destruct (lt _ _) eqn:Hlt; [| by rewrite app_nil_r].
      apply lt_not_strict_eq in Hlt. congruence.
    + rewrite (Hrun eq_refl). apply orb_false_elim in Hg as [-> _]. simpl.
      unfold sent. rewrite Hbot.
      destruct (lt _ _); simpl; [reflexivity |].
      rewrite Hbot. by rewrite app_nil_r.
  - intros Hfalsy Hup.
    assert (Hg : unchanged item reading = false).
    { unfold unchanged. rewrite Hfalsy. simpl.
      destruct (strict_eq _ _) eqn:Heq; [| reflexivity].
      unfold strict_eq, SFeqb in Heq. unfold lt, SFltb in Hup.
      rewrite (SFcompare_antisym (price reading)) in Hup.
      destruct (SFcompare (price reading) _) as [[| |] |]; simpl in *;
        congruence. }
    rewrite (Hrun Hg), (lt_asym _ _ Hup). unfold sent, rows_of. simpl.
    split; reflexivity.
  - intros Heq. apply Hquiet. unfold unchanged. rewrite Heq.
    apply orb_true_r.
  - intros Hfalsy. apply Hquiet. unfold unchanged. rewrite Hfalsy.
    reflexivity.
Qed.

(** ** A firing *)

(** A task that asks no update leaves the store and the outbox as they
    are. *)
Lemma taskFunction_quiet item w :
  task_update item = None →
  dbInstance (taskFunction item w).2 = dbInstance w
  ∧ botInstance (taskFunction item w).2 = botInstance w.
Proof.
  unfold task_update.
  destruct (fetched (url item) (site item)) as [reading | e] eqn:Hf.
  - destruct (unchanged item reading) eqn:Hg; [| discriminate].
    intros _. rewrite (taskFunction_unchanged _ _ _ Hf Hg). auto.
  - intros _. rewrite (taskFunction_fetch_throws _ _ _ Hf). auto.
Qed.

Lemma forEach_cons item rest (callback : Row → M unit) w :
  (forEach (item :: rest) callback w).2
  = (forEach rest callback (callback item w).2).2.
Proof.
  simpl. destruct (callback item w) as [settled w1]. simpl.
  destruct (forEach rest callback w1) as [[others | e] w2]; reflexivity.
Qed.

(** Every item of the watchlist gets its task, whatever the others end in. *)
Lemma forEach_settles_all watchlist (callback : Row → M unit) w :
  ∃ settled,
    (forEach watchlist callback w).1 = Normal settled
    ∧ length settled = length watchlist.
Proof.
  revert w. induction watchlist as [| item rest IH]; intros w.
  - exists []. split; reflexivity.
  - simpl. destruct (callback item w) as [c w1].
    destruct (IH w1) as (others & Hrun & Hlen).
    destruct (forEach rest callback w1) as [[others' | e] w2];
      simpl in Hrun; [| discriminate].
    injection Hrun as ->. exists (c :: others). simpl. auto.
Qed.

Lemma forEach_quiet watchlist w :
  Forall (λ item, task_update item = None) watchlist →
  dbInstance (forEach watchlist taskFunction w).2 = dbInstance w
  ∧ botInstance (forEach watchlist taskFunction w).2 = botInstance w.
Proof.
  intros Hall. revert w.
  induction Hall as [| item rest Hitem _ IH]; intros w; [auto |].
  rewrite forEach_cons.
  destruct (IH (taskFunction item w).2) as [-> ->].
  apply taskFunction_quiet, Hitem.
Qed.

Lemma refresh_Some item u : task_update item = Some u → refresh item = set_price u item.
Proof. unfold refresh. by intros ->. Qed.

Lemma refresh_None item : task_update item = None → refresh item = item.
Proof. unfold refresh. by intros ->. Qed.

Lemma set_price_id u r : id (set_price u r) = id r.
Proof. unfold set_price. case_bool_decide; reflexivity. Qed.

Lemma set_price_other u r : id r ≠ Update.id u → set_price u r = r.
Proof. intros Hne. unfold set_price. by rewrite bool_decide_eq_false_2. Qed.

Lemma refresh_id item : id (refresh item) = id item.
Proof. unfold refresh. destruct (task_update item); [apply set_price_id | done]. Qed.

Lemma task_update_id item u : task_update item = Some u → Update.id u = id item.
Proof.
  unfold task_update. destruct (fetched _ _) as [reading |]; [| discriminate].
  destruct (unchanged item reading); [discriminate |]. by intros [= <-].
Qed.

(** A refreshed row asks no update: the price it holds is the price read. *)
Lemma task_update_refresh item : task_update (refresh item) = None.
Proof.
  unfold refresh. destruct (task_update item) as [u |] eqn:Hu; [| exact Hu].
  unfold task_update in *.
  destruct (fetched (url item) (site item)) as [reading |] eqn:Hf;
    [| discriminate].
  destruct (unchanged item reading) eqn:Hg; [discriminate |].
  injection Hu as <-.
  unfold set_price, update_of. simpl. rewrite bool_decide_eq_true_2 by done.
  simpl. rewrite Hf.
  apply orb_false_elim in Hg as [Hfalsy _].
  unfold unchanged. simpl.
  rewrite (strict_eq_refl _ (falsy_not_nan _ Hfalsy)), orb_true_r. reflexivity.
Qed.

(** The tasks of the rows [todo], run on a table that holds the refreshed
    rows [done] followed by [todo], leave every row refreshed. *)
Lemma forEach_refreshes done todo w :
  primary_key (done ++ todo) →
  rows_of w = (refresh <$> done) ++ todo →
  rows_of (forEach todo taskFunction w).2 = refresh <$> (done ++ todo).
Proof.
  revert done w. induction todo as [| item rest IH]; intros done w Hkey Hrows.
  - simpl. by rewrite Hrows, !app_nil_r.
  - rewrite forEach_cons.
    replace (done ++ item :: rest) with ((done ++ [item]) ++ rest) in *
      by (by rewrite <- app_assoc).
    apply IH; [exact Hkey |].
    rewrite taskFunction_rows, Hrows, (fmap_app refresh done [item]).
    rewrite <- app_assoc. simpl.
    destruct (task_update item) as [u |] eqn:Hu;
      [| by rewrite (refresh_None _ Hu)].
    rewrite (refresh_Some _ _ Hu).
    apply task_update_id in Hu.
    unfold primary_key in Hkey.
    rewrite !fmap_app, fmap_cons in Hkey. simpl in Hkey.
    rewrite <- app_assoc in Hkey. simpl in Hkey.
    apply NoDup_app in Hkey as (_ & Hdone & Htodo).
    apply NoDup_cons in Htodo as [Hrest _].
    rewrite fmap_app, fmap_cons. f_equal; [| f_equal].
    + rewrite <- list_fmap_compose. apply list_fmap_ext.
      intros i r Hr. simpl. apply set_price_other.
      rewrite refresh_id, Hu. intros Heq.
      apply (Hdone (id r)); [| rewrite Heq; left].
      apply list_elem_of_fmap_2. eapply list_elem_of_lookup_2, Hr.
    + rewrite <- (list_fmap_id rest) at 2. apply list_fmap_ext.
      intros i r Hr. simpl. apply set_price_other. rewrite Hu. intros Heq.
      apply Hrest. rewrite <- Heq.
      apply list_elem_of_fmap_2. eapply list_elem_of_lookup_2, Hr.
Qed.

Lemma firing_run w db :
  dbInstance w = Some db →
  readable (price_tracker db) →
  (firing w).2 = (forEach (price_tracker db) taskFunction w).2.
Proof.
  intros Hdb Hread. unfold firing, mbind, M_bind.
  rewrite (getAllWatchlist_run _ _ Hdb Hread).
  case_bool_decide as Hlen; [| reflexivity].
  apply nil_length_inv in Hlen. rewrite Hlen. reflexivity.
Qed.

(** A firing whose read is refused runs no task. *)
Lemma firing_refused w db :
  dbInstance w = Some db →
  ¬ readable (price_tracker db) →
  ∃ message,
    firing w = (Throw (Error (str "Database query failed")),
                query_failed (RangeError message) w).
Proof.
  intros Hdb Hread.
  destruct (select_all_refused _ Hread) as [message Hsel]. exists message.
  unfold firing, mbind, M_bind.
  rewrite (getAllWatchlist_refused _ _ _ Hdb Hsel). reflexivity.
Qed.

Lemma firing_closed w : dbInstance w = None → (firing w).2 = w.
Proof.
  intros Hdb. unfold firing, getAllWatchlist, getInstance, mbind, M_bind.
  rewrite Hdb. reflexivity.
Qed.

Lemma firing_unread w :
  ¬ readable (rows_of w) →
  ∃ message,
    firing w = (Throw (Error (str "Database query failed")),
                query_failed (RangeError message) w).
Proof.
  unfold rows_of. destruct (dbInstance w) as [db |] eqn:Hdb.
  - apply (firing_refused _ _ Hdb).
  - intros Hread. destruct Hread. constructor.
Qed.

(** After a firing every row is refreshed. *)
Lemma firing_refreshes w :
  primary_key (rows_of w) → readable (rows_of w) →
  rows_of (firing w).2 = refresh <$> rows_of w.
Proof.
  intros Hkey Hread. destruct (dbInstance w) as [db |] eqn:Hdb.
  - rewrite (firing_run _ _ Hdb)
      by (unfold rows_of in Hread; rewrite Hdb in Hread; exact Hread).
    assert (Hrows : rows_of w = price_tracker db)
      by (unfold rows_of; rewrite Hdb; reflexivity).
    rewrite Hrows in *.
    apply (forEach_refreshes [] (price_tracker db) w Hkey Hrows).
  - rewrite (firing_closed _ Hdb). unfold rows_of. rewrite Hdb. reflexivity.
Qed.

(** C9: a task whose reading carries the stored [last_price] changes
    nothing; the task of a row, run again on the row as its first run left
    it, writes nothing and sends nothing; and a firing that follows a firing,
    on the same pages, leaves the store and the messages sent as the first
    one left them. *)
Theorem polling_is_idempotent :
  (∀ item reading w,
     fetchPrice (url item) (site item) w = (Normal reading, w) →
     strict_eq (price reading) (last_price item) = true →
     taskFunction item w = (Normal tt, w))
  ∧ (∀ item w,
       item ∈ rows_of w →
       ∃ item',
         item' ∈ rows_of (taskFunction item w).2
         ∧ id item' = id item
         ∧ ∀ w', dbInstance (taskFunction item' w').2 = dbInstance w'
                 ∧ sent (taskFunction item' w').2 = sent w')
  ∧ (∀ w,
       primary_key (rows_of w) →
       let once := (firing w).2 in
       let twice := (firing once).2 in
       dbInstance twice = dbInstance once
       ∧ botInstance twice = botInstance once
       ∧ sent twice = sent once).
Proof.
  split_and!.
  - intros item reading w Hfetch Heq.
    rewrite fetchPrice_run in Hfetch. injection Hfetch as Hf.
    apply (taskFunction_unchanged _ _ _ Hf).
    unfold unchanged. rewrite Heq. apply orb_true_r.
  - intros item w Hin. exists (refresh item). split_and!.
    + rewrite taskFunction_rows.
      destruct (task_update item) as [u |] eqn:Hu.
      * rewrite (refresh_Some _ _ Hu). apply list_elem_of_fmap_2, Hin.
      * rewrite (refresh_None _ Hu). exact Hin.
    + apply refresh_id.
    + intros w'.
      destruct (taskFunction_quiet (refresh item) w' (task_update_refresh item))
        as [Hd Hb].
      split; [exact Hd |]. unfold sent. by rewrite Hb.
  - intros w Hkey once twice.
    assert (Hsame : dbInstance twice = dbInstance once
                    ∧ botInstance twice = botInstance once).
    { subst twice. destruct (dbInstance once) as [db |] eqn:Hdb;
        [| rewrite (firing_closed _ Hdb); auto].
      destruct (readable_dec (price_tracker db)) as [Hread' | Hread'];
        [| destruct (firing_refused _ _ Hdb Hread') as [message ->];
           simpl; auto].
      rewrite (firing_run _ _ Hdb Hread'), <- Hdb. apply forEach_quiet.
      destruct (readable_dec (rows_of w)) as [Hread | Hread].
      - pose proof (firing_refreshes w Hkey Hread) as Hrows.
        fold once in Hrows.
        unfold rows_of in Hrows at 1. rewrite Hdb in Hrows. simpl in Hrows.
        rewrite Hrows. apply Forall_fmap, Forall_forall.
        intros item _. apply task_update_refresh.
      - exfalso. apply Hread. unfold rows_of.
        destruct (dbInstance w) as [db0 |] eqn:Hdb0.
        + unfold rows_of in Hread. rewrite Hdb0 in Hread.
          destruct (firing_refused _ _ Hdb0 Hread) as [message Hrun].
          unfold once in Hdb. rewrite Hrun in Hdb. simpl in Hdb.
          rewrite Hdb0 in Hdb. injection Hdb as ->. exact Hread'.
        + constructor. }
    destruct Hsame as [Hd Hb]. unfold sent. rewrite Hb. auto.
Qed.

End Polling.



(* ===================================================================== *)
(** * The primary key is kept                                              *)
(* ===================================================================== *)

Section PrimaryKey.
Context `{Outside}.

Lemma max_id_bound (rows : list Row) (r : Row) : r ∈ rows → id r ≤ max_id rows.
Proof.
  induction rows as [| r' rows IH]; [by intros ?%not_elem_of_nil |].
  intros [-> | Hin]%elem_of_cons; simpl; [lia |].
  specialize (IH Hin). lia.
Qed.

Lemma primary_key_set_price u rows :
  primary_key rows → primary_key (set_price u <$> rows).
Proof.
  unfold primary_key. rewrite <- list_fmap_compose.
  rewrite (list_fmap_ext (id ∘ set_price u) id rows); [done |].
  intros i r _. apply set_price_id.
Qed.

Lemma primary_key_filter (P : Row → Prop) `{∀ r, Decision (P r)} rows :
  primary_key rows → primary_key (filter P rows).
Proof.
  unfold primary_key. intros Hkey.
  apply (sublist_NoDup _ (id <$> rows)); [exact Hkey |].
  apply fmap_sublist, sublist_filter.
Qed.

Lemma primary_key_insert rows seq r :
  primary_key rows → id r = Z.max seq (max_id rows) + 1 →
  primary_key (rows ++ [r]).
Proof.
  unfold primary_key. intros Hkey Hid.
  rewrite fmap_app. apply NoDup_app. split; [exact Hkey | split].
  - intros i Hi. simpl. intros [-> | []%not_elem_of_nil]%elem_of_cons.
    apply list_elem_of_fmap in Hi as (r' & Hr' & Hin).
    apply max_id_bound in Hin. lia.
  - simpl. apply NoDup_singleton.
Qed.

(** X21: every operation on the store, and with them the polling task and
    the firing, leaves [id] a key of the table. *)
Lemma store_keeps_primary_key w :
  primary_key (rows_of w) →
  (∀ chatId url site price currency,
     primary_key (rows_of (addToWatchlist chatId url site price currency w).2))
  ∧ (∀ u, primary_key (rows_of (updateWatchlist u w).2))
  ∧ (∀ chatId arg, primary_key (rows_of (removeFromWatchlist chatId arg w).2))
  ∧ (∀ chatId, primary_key (rows_of (clearAll chatId w).2))
  ∧ (∀ item, primary_key (rows_of (taskFunction item w).2))
  ∧ primary_key (rows_of (firing w).2).
Proof.
  intros Hkey. split_and!.
  - intros chatId url site price currency. unfold rows_of in *.
    destruct (dbInstance w) as [db |] eqn:Hdb.
    + unfold addToWatchlist, getInstance, try_catch, mbind, M_bind.
      rewrite Hdb. destruct (is_nan price); simpl; [by rewrite Hdb |].
      by apply (primary_key_insert _ (sqlite_sequence db)).
    + unfold addToWatchlist, getInstance, mbind, M_bind.
      by rewrite Hdb; simpl; rewrite Hdb.
  - intros u. unfold rows_of in *.
    destruct (dbInstance w) as [db |] eqn:Hdb.
    + unfold updateWatchlist, getInstance, try_catch, mbind, M_bind.
      rewrite Hdb. destruct (_ && _); simpl; [by rewrite Hdb |].
      destruct (head _); simpl; by apply primary_key_set_price.
    + rewrite (updateWatchlist_closed _ _ Hdb). simpl. by rewrite Hdb.
  - intros chatId arg. unfold rows_of in *.
    destruct (dbInstance w) as [db |] eqn:Hdb.
    + rewrite (removeFromWatchlist_run _ _ _ _ Hdb). simpl.
      by apply primary_key_filter.
    + unfold removeFromWatchlist, getInstance, mbind, M_bind.
      by rewrite Hdb; simpl; rewrite Hdb.
  - intros chatId. unfold rows_of in *.
    destruct (dbInstance w) as [db |] eqn:Hdb.
    + rewrite (clearAll_run _ _ _ Hdb). simpl. by apply primary_key_filter.
    + unfold clearAll, getInstance, mbind, M_bind.
      by rewrite Hdb; simpl; rewrite Hdb.
  - intros item. rewrite taskFunction_rows.
    destruct (task_update item); [by apply primary_key_set_price | done].
  - destruct (readable_dec (rows_of w)) as [Hread | Hread];
      [| by destruct (firing_unread _ Hread) as [message ->]].
    rewrite (firing_refreshes _ Hkey Hread). unfold primary_key.
    rewrite <- list_fmap_compose.
    rewrite (list_fmap_ext (id ∘ refresh) id (rows_of w)); [done |].
    intros i r _. apply refresh_id.
Qed.

(** Two updates of different ids can be run in either order. *)
Lemma set_price_comm u1 u2 (rows : list Row) :
  Update.id u1 ≠ Update.id u2 →
  set_price u1 <$> (set_price u2 <$> rows)
  = set_price u2 <$> (set_price u1 <$> rows).
Proof.
  intros Hne. rewrite <- !list_fmap_compose. apply list_fmap_ext.
  intros i r _. simpl. unfold set_price.
  repeat (case_bool_decide; simpl in *); congruence.
Qed.

End PrimaryKey.

(** C1 as stated fails at the price 0: the page shows "0", which differs
    from the stored 100, and the task leaves the store as it is. *)
Lemma price_zero_is_not_persisted :
  let O := showing "0" in
  fetchPrice (url item) (site item) world
  = (Normal {| price := of_Z 0; currencyText := str "Rs" |}, world)
  ∧ strict_eq (of_Z 0) (last_price item) = false
  ∧ taskFunction item world = (Normal tt, world)
  ∧ rows_of (taskFunction item world).2 = [Fixture.row 1 42 (shop "1") 100].
Proof. vm_compute. repeat split; reflexivity. Qed.

(** C1, amended, at a page that shows 90 for the item stored at 100. *)
Lemma taskFunction_persists_changed_nonzero_price_witness :
  let O := showing "90" in
  dbInstance (taskFunction item world).2
  = Some {| price_tracker := [Fixture.row 1 42 (shop "1") 90];
            sqlite_sequence := 1 |}.
Proof.
  intros O.
  refine (eq_trans (proj1 (proj1 (taskFunction_persists_changed_nonzero_price
                                    (H := O) item
                                    {| price := of_Z 90; currencyText := str "Rs" |}
                                    world _ _ _) _ _)) _);
    reflexivity.
Defined.

(** C2 as stated fails at the price 0: the price element of the page is
    empty, the price read is 0, less than the stored 100, and nothing is
    sent. *)
Lemma price_drop_to_zero_is_not_notified :
  let O := showing "" in
  fetchPrice (url item) (site item) world
  = (Normal {| price := of_Z 0; currencyText := str "Rs" |}, world)
  ∧ lt (of_Z 0) (last_price item) = true
  ∧ sent (taskFunction item world).2 = [].
Proof. vm_compute. repeat split; reflexivity. Qed.

(** C2, amended, at a page that shows 90 for the item stored at 100: the
    drop is notified. *)
Lemma taskFunction_notifies_iff_nonzero_drop_witness :
  let O := showing "90" in
  sent (taskFunction item world).2
  = [{| to := 42;
        body := PriceDrop (str (shop "1")) (str "Rs") (of_Z 100) (str "Rs")
                          (of_Z 90) |}].
Proof.
  intros O.
  refine (eq_trans (proj1 (taskFunction_notifies_iff_nonzero_drop
                             (H := O) item
                             {| price := of_Z 90; currencyText := str "Rs" |}
                             world _ [] _ _ _ _)) _).
  - reflexivity.
  - reflexivity.
  - left.
  - reflexivity.
  - reflexivity.
Defined.

(** C9, at the three-item watchlist: the first firing writes two prices and
    sends one message, the second changes neither the store nor the messages
    sent. *)
Lemma polling_is_idempotent_witness :
  let O := second_unreachable in
  let w := Fixture.world watchlist [] in
  let once := (firing w).2 in
  let twice := (firing once).2 in
  rows_of once
  = [Fixture.row 1 42 (shop "1") 90; Fixture.row 2 42 (shop "2") 100;
     Fixture.row 3 43 (shop "3") 108000]
  ∧ length (sent once) = 1%nat
  ∧ dbInstance twice = dbInstance once
  ∧ botInstance twice = botInstance once
  ∧ sent twice = sent once.
Proof.
  intros O w once twice. split; [reflexivity | split; [reflexivity |]].
  apply (proj2 (proj2 (polling_is_idempotent (H := O))) w).
  unfold primary_key. apply (bool_decide_unpack _). vm_compute. exact I.
Defined.

(** C3, on the code: a firing over three items, the second of which cannot
    be fetched.  The first and the third task end well and their prices are
    written; the second task logs the failure and then throws, so that the
    promise of its callback, which nothing awaits, is rejected. *)
Theorem firing_with_failing_fetch_rejects :
  let O := second_unreachable in
  let w := Fixture.world watchlist [] in
  (firing w).1 = Normal [Normal tt; Throw task_failure; Normal tt]
  ∧ rows_of (firing w).2
    = [Fixture.row 1 42 (shop "1") 90; Fixture.row 2 42 (shop "2") 100;
       Fixture.row 3 43 (shop "3") 108000]
  ∧ console_error (firing w).2
    = [[LogText (str "Error checking"); LogText (str (shop "2"));
        LogText (str "getaddrinfo ENOTFOUND")]].
Proof. vm_compute. repeat split; reflexivity. Qed.

(* ===================================================================== *)
(** * The conversation                                                     *)
(* ===================================================================== *)

(** ** Strings *)

Lemma split_no_separator (sep : N) (s : jsstring) :
  sep ∉ s → split sep s = [s].
Proof.
  induction s as [| c s IH]; intros Hsep; [reflexivity |].
  apply not_elem_of_cons in Hsep as [Hc Hs]. simpl.
  destruct (N.eqb_spec c sep) as [-> | _]; [done |].
  by rewrite (IH Hs).
Qed.

Lemma split_one_separator (sep : N) (front back : jsstring) :
  sep ∉ front → sep ∉ back → split sep (front ++ sep :: back) = [front; back].
Proof.
  intros Hfront Hback. induction front as [| c front IH]; simpl.
  - by rewrite N.eqb_refl, (split_no_separator _ _ Hback).
  - apply not_elem_of_cons in Hfront as [Hc Hfront].
    destruct (N.eqb_spec c sep) as [-> | _]; [done |].
    by rewrite (IH Hfront).
Qed.

Lemma trimStart_suffix (s : jsstring) : trimStart s `suffix_of` s.
Proof.
  induction s as [| c s IH]; [done |]. simpl.
  destruct (isWhiteSpace c); [by apply suffix_cons_r | done].
Qed.

Lemma trim_elem_of (s : jsstring) (c : N) : c ∈ trim s → c ∈ s.
Proof.
  unfold trim, trimEnd. rewrite elem_of_reverse. intros Hc.
  apply (elem_of_suffix (trimStart s)); [| apply trimStart_suffix].
  apply elem_of_reverse.
  apply (elem_of_suffix (trimStart (reverse (trimStart s))));
    [exact Hc | apply trimStart_suffix].
Qed.

(** ** What leaves the session map alone *)

Create HintDb sessions.

Lemma keeps_ret {A} (a : A) : keeps_sessions (mret a).
Proof. done. Qed.

Lemma keeps_throw {A} (e : Exn) : keeps_sessions (throw (A := A) e).
Proof. done. Qed.

Lemma keeps_lift {A} (c : Completion A) : keeps_sessions (lift c).
Proof. done. Qed.

Lemma keeps_bind {A B} (m : M A) (f : A → M B) :
  keeps_sessions m → (∀ a, keeps_sessions (f a)) → keeps_sessions (m ≫= f).
Proof.
  intros Hm Hf w. unfold mbind, M_bind. specialize (Hm w).
  destruct (m w) as [[a | e] w1]; [| exact Hm].
  rewrite Hf. exact Hm.
Qed.

Lemma keeps_try_catch {A} (body : M A) (handler : Exn → M A) :
  keeps_sessions body → (∀ e, keeps_sessions (handler e)) →
  keeps_sessions (try_catch body handler).
Proof.
  intros Hm Hh w. unfold try_catch. specialize (Hm w).
  destruct (body w) as [[a | e] w1]; [exact Hm |].
  rewrite Hh. exact Hm.
Qed.

Lemma keeps_sendMessage chatId text : keeps_sessions (sendMessage chatId text).
Proof. intros w. unfold sendMessage. by destruct (botInstance w). Qed.

Lemma keeps_getInstance : keeps_sessions getInstance.
Proof. intros w. unfold getInstance. by destruct (dbInstance w). Qed.

Lemma keeps_write rows seq : keeps_sessions (write rows seq).
Proof. done. Qed.

Lemma keeps_console_error_log args : keeps_sessions (console_error_log args).
Proof. done. Qed.

#[local] Hint Resolve keeps_ret keeps_throw keeps_lift keeps_sendMessage
  keeps_getInstance keeps_write keeps_console_error_log : sessions.
#[local] Hint Extern 2 (keeps_sessions (_ ≫= _)) =>
  apply keeps_bind; [| intros ?] : sessions.
#[local] Hint Extern 2 (keeps_sessions (try_catch _ _)) =>
  apply keeps_try_catch; [| intros ?] : sessions.
#[local] Hint Extern 3 (keeps_sessions (if ?b then _ else _)) =>
  destruct b : sessions.
#[local] Hint Extern 3 (keeps_sessions (match ?o with Some _ => _ | None => _ end)) =>
  destruct o : sessions.

Section Conversation.
Context `{Outside}.

Lemma keeps_fetchPrice url site : keeps_sessions (fetchPrice url site).
Proof. intros w. by rewrite fetchPrice_run. Qed.

Lemma keeps_addToWatchlist chatId url site price currency :
  keeps_sessions (addToWatchlist chatId url site price currency).
Proof. unfold addToWatchlist. auto 10 with sessions. Qed.

Lemma keeps_removeFromWatchlist chatId id :
  keeps_sessions (removeFromWatchlist chatId id).
Proof. unfold removeFromWatchlist. auto 10 with sessions. Qed.

Lemma keeps_addCommand chatId url site :
  keeps_sessions (addCommand chatId url site).
Proof.
  unfold addCommand.
  auto 10 using keeps_fetchPrice, keeps_addToWatchlist with sessions.
Qed.

Lemma keeps_removeCommand chatId id : keeps_sessions (removeCommand chatId id).
Proof.
  unfold removeCommand. auto 10 using keeps_removeFromWatchlist with sessions.
Qed.

Lemma keeps_text_trim msg : keeps_sessions (text_trim msg).
Proof. unfold text_trim. auto with sessions. Qed.

Lemma keeps_handleUserStateForAddCommand chatId msg :
  keeps_sessions (handleUserStateForAddCommand chatId msg).
Proof.
  unfold handleUserStateForAddCommand.
  auto 10 using keeps_text_trim, keeps_addCommand with sessions.
Qed.

Lemma keeps_handleUserStateForRemoveCommand chatId msg :
  keeps_sessions (handleUserStateForRemoveCommand chatId msg).
Proof.
  unfold handleUserStateForRemoveCommand.
  auto 10 using keeps_text_trim, keeps_removeCommand with sessions.
Qed.

Lemma keeps_continuation step chatId msg :
  keeps_sessions (continuation step chatId msg).
Proof.
  destruct step; [apply keeps_handleUserStateForAddCommand
                 | apply keeps_handleUserStateForRemoveCommand].
Qed.

(** With a session pending, [listenToMessages] runs the handler of the step
    and deletes the session when the handler returns; what the handler
    throws leaves [listenToMessages] before the [delete]. *)
Lemma listenToMessages_run chatId msg w step :
  userStates w !! chatId = Some step →
  listenToMessages chatId msg w
  = match continuation step chatId msg w with
    | (Normal _, w1) =>
        (Normal tt, set_userStates (delete chatId (userStates w1)) w1)
    | (Throw e, w1) => (Throw e, w1)
    end.
Proof.
  intros Hstep. unfold listenToMessages, get, modify, mbind, M_bind.
  rewrite Hstep. destruct step; simpl;
    match goal with |- context [?h chatId msg w] =>
      destruct (h chatId msg w) as [[[] | e] w1] end; reflexivity.
Qed.

Lemma listenToMessages_idle chatId msg w :
  userStates w !! chatId = None → listenToMessages chatId msg w = (Normal tt, w).
Proof.
  intros Hnone. unfold listenToMessages, get, mbind, M_bind.
  rewrite Hnone. reflexivity.
Qed.

Lemma handleUserStateForAddCommand_malformed chatId t w outbox :
  hyphen ∉ t →
  botInstance w = Some outbox →
  handleUserStateForAddCommand chatId {| Telegram.text := Some t |} w
  = (Normal tt,
     set_bot (outbox ++ [{| to := chatId; body := InvalidFormat |}]) w).
Proof.
  intros Hsep Hbot.
  unfold handleUserStateForAddCommand, text_trim, mbind, M_bind, mret, M_ret.
  simpl. rewrite split_no_separator by (intros Hin; apply Hsep, trim_elem_of, Hin).
  simpl. unfold sendMessage. rewrite Hbot. reflexivity.
Qed.

Lemma handleUserStateForAddCommand_parts chatId t w p0 p1 rest :
  split hyphen (trim t) = p0 :: p1 :: rest →
  handleUserStateForAddCommand chatId {| Telegram.text := Some t |} w
  = addCommand chatId (trim p0) (trim p1) w.
Proof.
  intros Hparts.
  unfold handleUserStateForAddCommand, text_trim, mbind, M_bind, mret, M_ret.
  simpl. rewrite Hparts. simpl. reflexivity.
Qed.

Lemma removeCommand_returns chatId id w db outbox :
  dbInstance w = Some db →
  botInstance w = Some outbox →
  ∃ after, removeCommand chatId id w = (Normal tt, after).
Proof.
  intros Hdb Hbot. unfold removeCommand, mbind, M_bind, sendMessage at 1.
  rewrite Hbot.
  erewrite removeFromWatchlist_run by (simpl; exact Hdb).
  case_bool_decide; unfold sendMessage; simpl; eauto.
Qed.

(** The two triggers of a session. *)
Lemma addCommandWithUserState_sets chatId w :
  userStates (addCommandWithUserState chatId w).2
  = <[chatId := awaiting_site_url]> (userStates w).
Proof.
  unfold addCommandWithUserState, modify, mbind, M_bind.
  apply keeps_sendMessage.
Qed.

Lemma removeCommandWithUserState_sets chatId w outbox :
  botInstance w = Some outbox →
  userStates (removeCommandWithUserState chatId w).2
  = <[chatId := awaiting_remove]> (userStates w).
Proof.
  intros Hbot. unfold removeCommandWithUserState, modify, mbind, M_bind,
    sendMessage. rewrite Hbot. reflexivity.
Qed.

(** After the trigger of the guided add, a text without separator leaves no
    session behind. *)
Lemma add_then_malformed_text_clears chatId t w outbox :
  botInstance w = Some outbox →
  hyphen ∉ t →
  let asked := (addCommandWithUserState chatId w).2 in
  userStates asked !! chatId = Some awaiting_site_url
  ∧ userStates
      (listenToMessages chatId {| Telegram.text := Some t |} asked).2 !! chatId
    = None.
Proof.
  intros Hbot Hsep asked.
  assert (Hasked : userStates asked !! chatId = Some awaiting_site_url).
  { subst asked. rewrite addCommandWithUserState_sets. apply lookup_insert_eq. }
  split; [exact Hasked |].
  rewrite (listenToMessages_run _ _ _ _ Hasked). simpl.
  assert (Hbot' : ∃ outbox', botInstance asked = Some outbox').
  { subst asked. unfold addCommandWithUserState, modify, mbind, M_bind,
      sendMessage. simpl. rewrite Hbot. simpl. eauto. }
  destruct Hbot' as [outbox' Hbot'].
  rewrite (handleUserStateForAddCommand_malformed _ _ _ _ Hsep Hbot').
  simpl. apply lookup_delete_eq.
Qed.

(** C4, amended: with a session pending for an owner, the session is deleted
    (and no other session is touched) whenever the handling of the next
    message returns.  It returns for a text without the separator, which is
    answered with the format error, and for any text while the removal of an
    id is awaited, provided the bot and the database are there. *)
Theorem listenToMessages_consumes_session_on_return chatId msg w step :
  userStates w !! chatId = Some step →
  (∀ after,
     listenToMessages chatId msg w = (Normal tt, after) →
     userStates after = delete chatId (userStates w)
     ∧ userStates after !! chatId = None)
  ∧ (∀ t outbox,
       step = awaiting_site_url →
       Telegram.text msg = Some t →
       hyphen ∉ t →
       botInstance w = Some outbox →
       listenToMessages chatId msg w
       = (Normal tt,
          set_userStates (delete chatId (userStates w))
            (set_bot (outbox ++ [{| to := chatId; body := InvalidFormat |}]) w)))
  ∧ (∀ t db outbox,
       step = awaiting_remove →
       Telegram.text msg = Some t →
       dbInstance w = Some db →
       botInstance w = Some outbox →
       ∃ after,
         listenToMessages chatId msg w = (Normal tt, after)
         ∧ userStates after = delete chatId (userStates w)).
Proof.
  intros Hstep. rewrite (listenToMessages_run _ _ _ _ Hstep).
  pose proof (keeps_continuation step chatId msg w) as Hkeep.
  split; [| split].
  - intros after Hrun.
    destruct (continuation step chatId msg w) as [[[] | e] w1];
      [| discriminate].
    injection Hrun as <-. simpl in *. rewrite Hkeep.
    split; [reflexivity | apply lookup_delete_eq].
  - intros t outbox -> Ht Hsep Hbot. destruct msg as [text]. simpl in Ht.
    subst text. simpl.
    rewrite (handleUserStateForAddCommand_malformed _ _ _ _ Hsep Hbot).
    reflexivity.
  - intros t db outbox -> Ht Hdb Hbot. destruct msg as [text]. simpl in Ht.
    subst text. simpl in *.
    unfold handleUserStateForRemoveCommand, text_trim, mbind, M_bind, mret,
      M_ret in *. simpl in *.
    destruct (removeCommand_returns chatId (trim t) w db outbox Hdb Hbot)
      as [w1 Hrun].
    rewrite Hrun in *. simpl in *. eexists. split; [reflexivity |].
    simpl. by rewrite Hkeep.
Qed.

(** C5, amended: while the add payload is awaited, a text that holds the
    separator [-] once is read as url, then site: the add flow runs with the
    trimmed text before the [-] as the URL it fetches and stores, and with
    the trimmed text after it as the site. *)
Theorem guided_add_reads_url_then_site chatId t w front back :
  userStates w !! chatId = Some awaiting_site_url →
  trim t = front ++ hyphen :: back →
  hyphen ∉ front →
  hyphen ∉ back →
  let msg := {| Telegram.text := Some t |} in
  let url := trim front in
  let site := trim back in
  handleUserStateForAddCommand chatId msg w = addCommand chatId url site w
  ∧ (∀ db outbox reading,
       dbInstance w = Some db →
       botInstance w = Some outbox →
       fetchPrice url site w = (Normal reading, w) →
       is_nan (price reading) = false →
       ∃ after,
         listenToMessages chatId msg w = (Normal tt, after)
         ∧ rows_of after
           = price_tracker db ++
               [{| id := Z.max (sqlite_sequence db) (max_id (price_tracker db)) + 1;
                   chat_id := chatId; Runtime.url := url; Runtime.site := site;
                   last_price := price reading;
                   currency := currencyText reading |}]
         ∧ sent after
           = outbox ++
               [{| to := chatId; body := FetchingPrice |};
                {| to := chatId;
                   body := ProductAdded (currencyText reading) (price reading) |}]
         ∧ userStates after = delete chatId (userStates w))
  ∧ (∀ outbox e,
       botInstance w = Some outbox →
       fetchPrice url site w = (Throw e, w) →
       (listenToMessages chatId msg w).1 = Throw e
       ∧ dbInstance (listenToMessages chatId msg w).2 = dbInstance w).
Proof.
  intros Hstep Htext Hfront Hback msg url site.
  assert (Hparts : split hyphen (trim t) = [front; back])
    by (rewrite Htext; apply split_one_separator; assumption).
  pose proof (handleUserStateForAddCommand_parts chatId t w _ _ _ Hparts)
    as Hadd. fold msg url site in Hadd.
  split; [exact Hadd | split].
  - intros db outbox reading Hdb Hbot Hfetch Hnan.
    rewrite (listenToMessages_run _ _ _ _ Hstep). simpl. rewrite Hadd.
    rewrite fetchPrice_run in Hfetch. injection Hfetch as Hf.
    unfold addCommand, mbind, M_bind, sendMessage at 1. rewrite Hbot.
    rewrite fetchPrice_run, Hf.
    unfold addToWatchlist, getInstance, try_catch, write, modify, mbind,
      M_bind, mret, M_ret. simpl. rewrite Hdb, Hnan. simpl.
    unfold sendMessage. simpl.
    eexists. split; [reflexivity |]. unfold rows_of, sent. simpl.
    rewrite <- app_assoc. auto.
  - intros outbox e Hbot Hfetch.
    assert (Hrun : listenToMessages chatId msg w
                   = (Throw e,
                      set_bot (outbox ++ [{| to := chatId; body := FetchingPrice |}]) w)).
    { rewrite (listenToMessages_run _ _ _ _ Hstep). simpl. rewrite Hadd.
      rewrite fetchPrice_run in Hfetch. injection Hfetch as Hf.
      unfold addCommand, mbind, M_bind, sendMessage at 1. rewrite Hbot.
      rewrite fetchPrice_run, Hf. reflexivity. }
    rewrite Hrun. auto.
Qed.

End Conversation.



(** C4 as stated fails when the triggered flow fails: the payload names a
    site without extractor, [addCommand] throws, and the session of the owner
    is still pending after the message. *)
Lemma failed_add_flow_keeps_session :
  let O := web in
  let msg := message "https://shop.example/1 - flipkart" in
  (listenToMessages 42 msg awaiting_add).1
  = Throw (Error (str "Unsupported site"))
  ∧ userStates (listenToMessages 42 msg awaiting_add).2 !! 42
    = Some awaiting_site_url.
Proof. vm_compute. split; reflexivity. Qed.

(** C4, amended, at a text without separator. *)
Lemma listenToMessages_consumes_session_on_return_witness :
  let O := web in
  listenToMessages 42 (message "hello") awaiting_add
  = (Normal tt,
     set_userStates (delete 42 (userStates awaiting_add))
       (set_bot [{| to := 42; body := InvalidFormat |}] awaiting_add))
  ∧ userStates (listenToMessages 42 (message "hello") awaiting_add).2 !! 42
    = None.
Proof.
  intros O.
  destruct (listenToMessages_consumes_session_on_return (H := O)
              42 (message "hello") awaiting_add awaiting_site_url eq_refl)
    as (Hdel & Hmalformed & _).
  assert (Hrun := Hmalformed (str "hello") [] eq_refl eq_refl
                    ltac:(apply (bool_decide_unpack _); vm_compute; exact I)
                    eq_refl).
  split; [exact Hrun |]. apply (Hdel _ Hrun).
Defined.

(** C5 as stated fails on a text in the order site, then url: the flow
    fetches the URL "amazon" for the site "https://shop.example/1" and stores
    nothing, while [addCommand] with that text's url and site in their places
    stores the row. *)
Lemma site_then_url_is_not_added :
  let O := web in
  let msg := message "amazon - https://shop.example/1" in
  split hyphen (trim (str "amazon - https://shop.example/1"))
  = [str "amazon "; str " https://shop.example/1"]
  ∧ listenToMessages 42 msg awaiting_add
    = (Throw (Error (str "getaddrinfo ENOTFOUND")),
       set_bot [{| to := 42; body := FetchingPrice |}] awaiting_add)
  ∧ handleUserStateForAddCommand 42 msg awaiting_add
    = addCommand 42 (str "amazon") (str page_url) awaiting_add
  ∧ rows_of (listenToMessages 42 msg awaiting_add).2 = []
  ∧ rows_of (addCommand 42 (str page_url) (str "amazon") awaiting_add).2
    = [Fixture.row 1 42 page_url 499].
Proof. vm_compute. repeat split; reflexivity. Qed.

(** C5, amended, at a text in the order url, then site. *)
Lemma guided_add_reads_url_then_site_witness :
  let O := web in
  ∃ after,
    listenToMessages 42 (message "https://shop.example/1 - amazon") awaiting_add
    = (Normal tt, after)
    ∧ rows_of after = [Fixture.row 1 42 page_url 499]
    ∧ sent after
      = [{| to := 42; body := FetchingPrice |};
         {| to := 42; body := ProductAdded (str "Rs") (of_Z 499) |}]
    ∧ userStates after = delete 42 (userStates awaiting_add).
Proof.
  intros O.
  destruct (guided_add_reads_url_then_site (H := O) 42
              (str "https://shop.example/1 - amazon") awaiting_add
              (str "https://shop.example/1 ") (str " amazon")
              eq_refl eq_refl
              ltac:(apply (bool_decide_unpack _); vm_compute; exact I)
              ltac:(apply (bool_decide_unpack _); vm_compute; exact I))
    as (_ & Hadded & _).
  exact (Hadded {| price_tracker := []; sqlite_sequence := 0 |} []
           {| price := of_Z 499; currencyText := str "Rs" |}
           eq_refl eq_refl eq_refl eq_refl).
Defined.

(** A text with more than one [-] is outside the amended claim.  The example
    of the prompt itself, "https://amazon.in/product-123 - amazon", is one:
    it is cut at the hyphen of its URL. *)
Example prompt_example_is_cut_at_its_hyphen :
  let O := web in
  let msg := message "https://amazon.in/product-123 - amazon" in
  handleUserStateForAddCommand 42 msg awaiting_add
  = addCommand 42 (str "https://amazon.in/product") (str "123") awaiting_add.
Proof. reflexivity. Qed.

(* ===================================================================== *)
(** * More of the store: insertion, update and reading back                *)
(* ===================================================================== *)

Section StoreRoundTrips.
Context `{Outside}.

Lemma addToWatchlist_run w db chatId url site price currency :
  dbInstance w = Some db →
  is_nan price = false →
  addToWatchlist chatId url site price currency w
  = (Normal chatId,
     set_db {| price_tracker :=
                 price_tracker db ++
                   [{| id := next_id db; chat_id := chatId; Runtime.url := url;
                       Runtime.site := site; last_price := price;
                       Runtime.currency := currency |}];
               sqlite_sequence := next_id db |} w).
Proof.
  intros Hdb Hnan.
  unfold addToWatchlist, getInstance, try_catch, write, modify, mbind, M_bind,
    mret, M_ret.
  rewrite Hdb, Hnan. reflexivity.
Qed.

Lemma next_id_fresh db r : r ∈ price_tracker db → id r < next_id db.
Proof. intros Hin%max_id_bound. unfold next_id. lia. Qed.

(** Nothing is kept of a filter no element passes, everything of one every
    element passes. *)
Lemma filter_none {A} (P : A → Prop) `{∀ x, Decision (P x)} (l : list A) :
  (∀ x, x ∈ l → ¬ P x) → filter P l = [].
Proof.
  induction l as [| x l IH]; intros Hl; [reflexivity |].
  rewrite filter_cons_False by (apply Hl; left).
  apply IH. intros y Hy. apply Hl. by right.
Qed.

Lemma filter_all {A} (P : A → Prop) `{∀ x, Decision (P x)} (l : list A) :
  (∀ x, x ∈ l → P x) → filter P l = l.
Proof.
  induction l as [| x l IH]; intros Hl; [reflexivity |].
  rewrite filter_cons_True by (apply Hl; left).
  f_equal. apply IH. intros y Hy. apply Hl. by right.
Qed.

Lemma read_back_readable (rows : list Row) :
  (∀ r, r ∈ rows → read_back (last_price r)) → readable rows.
Proof.
  intros Hrows. apply Forall_forall. intros r Hr. apply (Hrows r Hr).
Qed.

Lemma readable_filter (P : Row → Prop) `{∀ r, Decision (P r)} rows :
  readable rows → readable (filter P rows).
Proof. apply readable_sublist, sublist_filter. Qed.

Lemma readable_snoc rows r :
  readable rows → too_large (last_price r) = false → readable (rows ++ [r]).
Proof. intros Hrows Hr. apply Forall_app. split; [exact Hrows | by constructor]. Qed.

(** X1: on an opened database whose prices read back as they were bound,
    inserting a product whose price is a number that reads back returns the
    owner and appends one row, with an id above every id of the table, that
    holds exactly the url, site, price and currency passed in; [getWatchlist]
    of the owner then returns the owner's former rows followed by that row,
    [getAllWatchlist] the former table followed by it, and the watchlist of
    every other owner reads as before. *)
Theorem addToWatchlist_then_getWatchlist w db chatId url site price currency :
  dbInstance w = Some db →
  is_nan price = false →
  read_back price →
  (∀ r, r ∈ price_tracker db → read_back (last_price r)) →
  let added := addToWatchlist chatId url site price currency w in
  added.1 = Normal chatId
  ∧ ∃ r,
      id r = next_id db ∧ chat_id r = chatId ∧ Runtime.url r = url
      ∧ Runtime.site r = site ∧ last_price r = price
      ∧ Runtime.currency r = currency
      ∧ (∀ r', r' ∈ price_tracker db → id r' < id r)
      ∧ (getWatchlist chatId added.2).1
        = Normal (watchlist_of chatId (price_tracker db) ++ [r])
      ∧ (getAllWatchlist added.2).1 = Normal (price_tracker db ++ [r])
      ∧ (∀ other, other ≠ chatId →
           (getWatchlist other added.2).1 = (getWatchlist other w).1).
Proof.
  intros Hdb Hnan [Hprice _] Hback%read_back_readable added. subst added.
  rewrite (addToWatchlist_run _ _ _ _ _ _ _ Hdb Hnan).
  cbn [fst snd].
  set (r := {| id := next_id db; chat_id := chatId; Runtime.url := url;
               Runtime.site := site; last_price := price;
               Runtime.currency := currency |}).
  set (db' := {| price_tracker := price_tracker db ++ [r];
                 sqlite_sequence := next_id db |}).
  assert (Hdb' : dbInstance (set_db db' w) = Some db') by reflexivity.
  assert (Hread : readable (price_tracker db'))
    by (apply readable_snoc; [exact Hback | exact Hprice]).
  split; [reflexivity |]. exists r.
  split_and!; try reflexivity.
  - intros r' Hin. simpl. by apply next_id_fresh.
  - rewrite (getWatchlist_run _ _ _ Hdb') by apply readable_filter, Hread.
    cbn [fst]. unfold watchlist_of, db'. cbn [price_tracker].
    rewrite filter_app, filter_cons_True by reflexivity. reflexivity.
  - rewrite (getAllWatchlist_run _ _ Hdb' Hread). reflexivity.
  - intros other Hother.
    rewrite (getWatchlist_run _ _ _ Hdb') by apply readable_filter, Hread.
    rewrite (getWatchlist_run _ _ _ Hdb) by apply readable_filter, Hback.
    cbn [fst]. unfold db'. cbn [price_tracker].
    rewrite filter_app, filter_cons_False by (simpl; congruence).
    by rewrite app_nil_r.
Qed.

(** X2: ids are not given twice.  Inserting a product, deleting the row it
    got (one row is deleted, the table is as before the insertion) and
    inserting again gives the new row the next id, not the one that was
    freed. *)
Theorem deleted_id_is_not_reused w db chatId url site price currency
    url' site' price' currency' :
  dbInstance w = Some db →
  is_nan price = false →
  is_nan price' = false →
  let first_added := (addToWatchlist chatId url site price currency w).2 in
  let removed := removeFromWatchlist chatId (ArgNumber (next_id db)) first_added in
  let second_added :=
    (addToWatchlist chatId url' site' price' currency' removed.2).2 in
  removed.1 = Normal 1%nat
  ∧ rows_of removed.2 = price_tracker db
  ∧ ∃ r, rows_of second_added = price_tracker db ++ [r]
         ∧ id r = next_id db + 1
         ∧ Runtime.url r = url' ∧ last_price r = price'.
Proof.
  intros Hdb Hnan Hnan' first_added removed second_added.
  pose (r1 := {| id := next_id db; chat_id := chatId; Runtime.url := url;
                 Runtime.site := site; last_price := price;
                 Runtime.currency := currency |}).
  pose (db1 := {| price_tracker := price_tracker db ++ [r1];
                  sqlite_sequence := next_id db |}).
  pose (db2 := {| price_tracker := price_tracker db;
                  sqlite_sequence := next_id db |}).
  assert (Hfirst : first_added = set_db db1 w).
  { subst first_added. by rewrite (addToWatchlist_run _ _ _ _ _ _ _ Hdb Hnan). }
  assert (Hold : ∀ r, r ∈ price_tracker db →
                      ¬ (chat_id r = chatId ∧ id r = next_id db)).
  { intros r Hin [_ Hid]. apply next_id_fresh in Hin. lia. }
  assert (Hremoved : removed = (Normal 1%nat, set_db db2 first_added)).
  { subst removed.
    rewrite (removeFromWatchlist_run first_added db1)
      by (rewrite Hfirst; reflexivity).
    unfold db1, db2, id_is. cbn [price_tracker sqlite_sequence].
    rewrite !filter_app.
    rewrite (filter_none (λ r, chat_id r = chatId ∧ id r = next_id db))
      by exact Hold.
    rewrite (filter_all (λ r, ¬ (chat_id r = chatId ∧ id r = next_id db)))
      by exact Hold.
    rewrite filter_cons_True by (simpl; auto).
    rewrite filter_cons_False by (simpl; tauto).
    by rewrite app_nil_r. }
  rewrite Hremoved. cbn [fst snd].
  split; [reflexivity |]. split; [reflexivity |].
  subst second_added. rewrite Hremoved. cbn [fst snd].
  rewrite (addToWatchlist_run _ db2) by (reflexivity || exact Hnan').
  unfold rows_of. cbn [dbInstance set_db from_option price_tracker db2].
  eexists. split; [reflexivity |]. cbn [id Runtime.url last_price].
  split; [| auto]. unfold next_id, db2. cbn [price_tracker sqlite_sequence].
  unfold next_id. lia.
Qed.

End StoreRoundTrips.

(* ===================================================================== *)
(** * More of the store: missing rows, closed database, deletions          *)
(* ===================================================================== *)

Section StoreEdges.
Context `{Outside}.

Lemma set_db_same w db : dbInstance w = Some db → set_db db w = w.
Proof. destruct w. simpl. by intros ->. Qed.

Lemma updated_none u db :
  (∀ r, r ∈ price_tracker db → id r ≠ Update.id u) → updated u db = db.
Proof.
  intros Hnone. destruct db as [rows seq]. unfold updated. simpl in *.
  f_equal. rewrite <- (list_fmap_id rows) at 2. apply list_fmap_ext.
  intros i r Hr. apply set_price_other. eapply Hnone, list_elem_of_lookup_2, Hr.
Qed.

(** Under the primary key the rows of one id are one row. *)
Lemma filter_key_singleton rows r0 :
  primary_key rows → r0 ∈ rows → filter (λ r, id r = id r0) rows = [r0].
Proof.
  unfold primary_key. induction rows as [| r rows IH]; intros Hkey Hin.
  - by apply not_elem_of_nil in Hin.
  - rewrite fmap_cons in Hkey. apply NoDup_cons in Hkey as [Hr Hkey].
    apply elem_of_cons in Hin as [<- | Hin].
    + rewrite filter_cons_True by reflexivity. f_equal.
      apply filter_none. intros r' Hr' Heq. apply Hr. rewrite <- Heq.
      by apply list_elem_of_fmap_2.
    + rewrite filter_cons_False; [by apply IH |].
      intros Heq. apply Hr. rewrite Heq. by apply list_elem_of_fmap_2.
Qed.

Lemma updateWatchlist_none u w db :
  dbInstance w = Some db →
  (∀ r, r ∈ price_tracker db → id r ≠ Update.id u) →
  updateWatchlist u w
  = (Throw (Error (str "Database update failed")),
     set_console
       (console_error w ++
          [[LogText (str "Something went wrong:");
            LogExn (TypeError (str "Cannot destructure property 'chat_id' of 'update.get(...)' as it is undefined."))]])
       w).
Proof.
  intros Hdb Hnone.
  assert (Hfound : filter (λ r, id r = Update.id u) (price_tracker db) = []).
  { apply filter_none. exact Hnone. }
  unfold updateWatchlist, getInstance, try_catch, write, modify, mbind, M_bind.
  rewrite Hdb. cbn beta iota. rewrite Hfound.
  rewrite bool_decide_eq_false_2 by (intros Hne; by apply Hne).
  rewrite andb_false_r. cbn [head].
  fold (updated u db). rewrite (updated_none _ _ Hnone).
  rewrite (set_db_same _ _ Hdb). reflexivity.
Qed.

(** X3: an update for an id the table does not hold changes no row and fails:
    [updateWatchlist] logs the error of the empty result and throws "Database
    update failed"; the table, the outbox and the sessions are as before. *)
Theorem updateWatchlist_missing_id w db u :
  dbInstance w = Some db →
  (∀ r, r ∈ price_tracker db → id r ≠ Update.id u) →
  let after := updateWatchlist u w in
  after.1 = Throw (Error (str "Database update failed"))
  ∧ dbInstance after.2 = Some db
  ∧ botInstance after.2 = botInstance w
  ∧ userStates after.2 = userStates w
  ∧ console_error after.2
    = console_error w ++
        [[LogText (str "Something went wrong:");
          LogExn (TypeError (str "Cannot destructure property 'chat_id' of 'update.get(...)' as it is undefined."))]].
Proof.
  intros Hdb Hnone after. subst after.
  rewrite (updateWatchlist_none _ _ _ Hdb Hnone). cbn [fst snd].
  split_and!; try reflexivity. exact Hdb.
Qed.

(** X4: an update for the id of a row of the table, with a price that is a
    number, returns the owner of that row, whoever asks, and rewrites the
    price and the currency of that row only: every row keeps its id, owner,
    url and site, every other row is as it was, and nothing but the table
    changes. *)
Theorem updateWatchlist_writes_price_and_currency_only w db u r0 :
  dbInstance w = Some db →
  primary_key (price_tracker db) →
  r0 ∈ price_tracker db →
  id r0 = Update.id u →
  is_nan (Update.lastPrice u) = false →
  let after := updateWatchlist u w in
  after.1 = Normal (chat_id r0)
  ∧ Forall2
      (λ r r',
         same_item r r'
         ∧ (id r = Update.id u →
            last_price r' = Update.lastPrice u
            ∧ currency r' = Update.currency u)
         ∧ (id r ≠ Update.id u → r' = r))
      (price_tracker db) (rows_of after.2)
  ∧ botInstance after.2 = botInstance w
  ∧ userStates after.2 = userStates w
  ∧ console_error after.2 = console_error w.
Proof.
  intros Hdb Hkey Hin Hid Hnan after. subst after.
  rewrite (updateWatchlist_run _ _ _ Hdb Hnan), <- Hid.
  rewrite (filter_key_singleton _ _ Hkey Hin). cbn [head fst snd].
  split_and!; try reflexivity.
  unfold rows_of. cbn. apply Forall2_fmap_r, Forall_Forall2_diag, Forall_forall.
  intros r _. unfold same_item, set_price, compose. rewrite <- Hid.
  case_bool_decide; cbn; tauto.
Qed.

(** X5: before the database is opened every helper of the store throws
    "Database not initialized!", outside its own [try]: nothing is logged and
    the process state is as before. *)
Theorem helpers_need_the_database w :
  dbInstance w = None →
  let closed {A} : Completion A := Throw (Error (str "Database not initialized!")) in
  (∀ chatId url site price currency,
     addToWatchlist chatId url site price currency w = (closed, w))
  ∧ (∀ u, updateWatchlist u w = (closed, w))
  ∧ (∀ chatId, getWatchlist chatId w = (closed, w))
  ∧ getAllWatchlist w = (closed, w)
  ∧ (∀ chatId id, removeFromWatchlist chatId id w = (closed, w))
  ∧ (∀ chatId, clearAll chatId w = (closed, w)).
Proof.
  intros Hdb closed. split_and!; intros;
    unfold addToWatchlist, updateWatchlist, getWatchlist, getAllWatchlist,
      removeFromWatchlist, clearAll, getInstance, mbind, M_bind;
    rewrite Hdb; reflexivity.
Qed.

(** X6: what the owner reads back after a deletion.  After
    [removeFromWatchlist] the owner's watchlist, when the prices of the rows
    it keeps read back as they were bound, is the former one without the rows
    of that id, and removing the same id again deletes nothing; after
    [clearAll] the owner's watchlist is empty and clearing again deletes
    nothing. *)
Theorem deletions_read_back w db owner arg :
  dbInstance w = Some db →
  (∀ r, r ∈ watchlist_of owner (price_tracker db) → ¬ id_is arg r →
        read_back (last_price r)) →
  let removed := (removeFromWatchlist owner arg w).2 in
  let cleared := (clearAll owner w).2 in
  ((getWatchlist owner removed).1
   = Normal (filter (λ r, ¬ id_is arg r) (watchlist_of owner (price_tracker db)))
   ∧ removeFromWatchlist owner arg removed = (Normal 0%nat, removed))
  ∧ ((getWatchlist owner cleared).1 = Normal []
     ∧ clearAll owner cleared = (Normal 0%nat, cleared)).
Proof.
  intros Hdb Hback removed cleared. subst removed cleared.
  rewrite (removeFromWatchlist_run _ _ _ _ Hdb), (clearAll_run _ _ _ Hdb).
  cbn [snd]. unfold watchlist_of in *.
  set (rows := price_tracker db) in *. set (seq := sqlite_sequence db).
  split; split.
  - erewrite getWatchlist_run; [| reflexivity |]; cbn [fst price_tracker].
    + f_equal. rewrite !list_filter_filter.
      apply list_filter_iff. intros r. tauto.
    + apply Forall_forall. intros r [Hr [Hkept Hin]%list_elem_of_filter]%list_elem_of_filter.
      apply (Hback r); [by apply list_elem_of_filter | tauto].
  - erewrite removeFromWatchlist_run by reflexivity.
    cbn [price_tracker sqlite_sequence].
    rewrite (filter_none (λ r, chat_id r = owner ∧ id_is arg r))
      by (intros r [Hr _]%list_elem_of_filter; exact Hr).
    rewrite filter_all
      by (intros r [Hr _]%list_elem_of_filter; exact Hr).
    reflexivity.
  - assert (Hnone : filter (λ r, chat_id r = owner)
                      (filter (λ r, ¬ chat_id r = owner) rows) = [])
      by (apply filter_none; intros r [Hr _]%list_elem_of_filter; exact Hr).
    erewrite getWatchlist_run; [| reflexivity |]; cbn [fst price_tracker];
      rewrite Hnone; [reflexivity | constructor].
  - erewrite clearAll_run by reflexivity.
    cbn [price_tracker sqlite_sequence].
    rewrite (filter_none (λ r, chat_id r = owner))
      by (intros r [Hr _]%list_elem_of_filter; exact Hr).
    rewrite filter_all
      by (intros r [Hr _]%list_elem_of_filter; exact Hr).
    reflexivity.
Qed.

(** X22: a price stored as an INTEGER beyond the safe range stops the reads
    that select its row.  [getWatchlist] of the owner of the row and
    [getAllWatchlist] log the [RangeError] and throw "Database query failed",
    and a firing ends there: it runs no task, and leaves the table, the
    sessions and the messages sent as they are. *)
Theorem unsafe_price_stops_the_reads w db r :
  dbInstance w = Some db →
  r ∈ price_tracker db →
  too_large (last_price r) = true →
  ∃ message message',
    getWatchlist (chat_id r) w
    = (Throw (Error (str "Database query failed")),
       query_failed (RangeError message) w)
    ∧ getAllWatchlist w
      = (Throw (Error (str "Database query failed")),
         query_failed (RangeError message') w)
    ∧ Schedule.firing w
      = (Throw (Error (str "Database query failed")),
         query_failed (RangeError message') w).
Proof.
  intros Hdb Hin Hlarge.
  assert (Hall : ¬ readable (price_tracker db)).
  { intros Hread. unfold readable in Hread. rewrite Forall_forall in Hread.
    specialize (Hread r Hin). congruence. }
  assert (Hmine : ¬ readable (filter (λ r', chat_id r' = chat_id r)
                                (price_tracker db))).
  { intros Hread. unfold readable in Hread. rewrite Forall_forall in Hread.
    specialize (Hread r). rewrite list_elem_of_filter in Hread.
    specialize (Hread (conj eq_refl Hin)). congruence. }
  destruct (select_all_refused _ Hmine) as [message Hsel].
  destruct (select_all_refused _ Hall) as [message' Hsel'].
  exists message, message'. split_and!.
  - apply (getWatchlist_refused _ _ _ _ Hdb Hsel).
  - apply (getAllWatchlist_refused _ _ _ Hdb Hsel').
  - unfold Schedule.firing, mbind, M_bind.
    rewrite (getAllWatchlist_refused _ _ _ Hdb Hsel'). reflexivity.
Qed.

End StoreEdges.

(* ===================================================================== *)
(** * More of the extraction: first matches and failures                   *)
(* ===================================================================== *)

Section ExtractionEdges.
Context `{Outside}.

Lemma text_first_cons (n : Node) (rest : list Node) :
  text (first (n :: rest)) = textContent n.
Proof. unfold text, first. simpl. apply app_nil_r. Qed.

(** X7: a reading is taken from the first match of each selector, and a
    missing match is no error.  With no element of the price class the
    reading is returned with the price 0; with several, the price is read
    from the text of the first one alone, and so is the currency. *)
Theorem reading_comes_from_first_matches selector dollar :
  let matches_of name := dollar (str "." ++ name) in
  (matches_of (Selector.price selector) = [] →
   pipeline (str "amazon") (Some selector) dollar
   = Normal {| price := of_Z 0;
               currencyText :=
                 text (first (matches_of (Selector.currency selector))) |})
  ∧ (∀ n rest,
       matches_of (Selector.price selector) = n :: rest →
       ∃ reading,
         pipeline (str "amazon") (Some selector) dollar = Normal reading
         ∧ price reading
           = if truthy_string (strip_punctuation (textContent n))
             then parseFloat (strip_punctuation (textContent n))
             else of_Z 0)
  ∧ (∀ n rest,
       matches_of (Selector.currency selector) = n :: rest →
       ∃ reading,
         pipeline (str "amazon") (Some selector) dollar = Normal reading
         ∧ currencyText reading = textContent n).
Proof.
  intros matches_of. subst matches_of. cbn beta.
  unfold pipeline. rewrite bool_decide_eq_true_2 by reflexivity.
  unfold getAmazonPrice. split_and!.
  - intros ->. reflexivity.
  - intros n rest ->. eexists. split; [reflexivity |]. cbn [price].
    by rewrite text_first_cons.
  - intros n rest ->. eexists. split; [reflexivity |]. cbn [currencyText].
    by rewrite text_first_cons.
Qed.

(** X8: how [fetchPrice] fails.  A request that fails is thrown on with its
    message; a page fetched for the site "amazon" while the selector table
    has no entry for it makes the read of [selector.price] throw a
    [TypeError]; and, failing or not, [fetchPrice] leaves the process state
    as it is. *)
Theorem fetchPrice_failures url site w :
  (∀ message,
     axios_get url = Failed message →
     fetchPrice url site w = (Throw (Error message), w))
  ∧ (∀ data,
       axios_get url = Page data →
       site = str "amazon" →
       classSelectors site = None →
       fetchPrice url site w
       = (Throw (TypeError (str "Cannot read properties of undefined (reading 'price')")), w))
  ∧ (fetchPrice url site w).2 = w.
Proof.
  split_and!.
  - intros message Hfail. unfold fetchPrice. by rewrite Hfail.
  - intros data Hpage -> Hnone. unfold fetchPrice, lift, pipeline.
    rewrite Hpage, Hnone, bool_decide_eq_true_2 by reflexivity. reflexivity.
  - by rewrite fetchPrice_run.
Qed.

End ExtractionEdges.

(* ===================================================================== *)
(** * More of the polling task: what a task and a firing touch             *)
(* ===================================================================== *)

Section PollingFootprint.
Context `{Outside}.

Lemma same_item_refl r : same_item r r.
Proof. by unfold same_item. Qed.

Lemma same_item_trans r1 r2 r3 :
  same_item r1 r2 → same_item r2 r3 → same_item r1 r3.
Proof. unfold same_item. intros (? & ? & ? & ?) (? & ? & ? & ?). split_and!; congruence. Qed.

Lemma same_item_set_price u r : same_item r (set_price u r).
Proof. unfold same_item, set_price. case_bool_decide; by cbn. Qed.

Lemma keeps_updateWatchlist u : keeps_sessions (updateWatchlist u).
Proof. unfold updateWatchlist. auto 12 with sessions. Qed.

Lemma keeps_getBot : keeps_sessions getBot.
Proof. intros w. unfold getBot. by destruct (botInstance w). Qed.

Lemma keeps_prePriceCheck item price currency :
  keeps_sessions (prePriceCheck item price currency).
Proof. unfold prePriceCheck. auto 10 using keeps_getBot with sessions. Qed.

Lemma keeps_taskFunction item : keeps_sessions (taskFunction item).
Proof.
  unfold taskFunction.
  auto 12 using keeps_fetchPrice, keeps_updateWatchlist, keeps_prePriceCheck
    with sessions.
Qed.

(** The rows after a task, one by one. *)
Lemma taskFunction_same_items item w :
  Forall2 (λ r r', same_item r r' ∧ (id r ≠ id item → r' = r))
          (rows_of w) (rows_of (taskFunction item w).2).
Proof.
  rewrite taskFunction_rows.
  destruct (task_update item) as [u |] eqn:Hu.
  - apply task_update_id in Hu.
    apply Forall2_fmap_r, Forall_Forall2_diag, Forall_forall.
    intros r _. split; [apply same_item_set_price |].
    intros Hne. apply set_price_other. congruence.
  - apply Forall_Forall2_diag, Forall_forall. intros r _.
    split; [apply same_item_refl | done].
Qed.

Lemma taskFunction_sent item w :
  sent (taskFunction item w).2 = sent w
  ∨ ∃ m, drop_notice item m ∧ sent (taskFunction item w).2 = sent w ++ [m].
Proof.
  destruct (fetched (url item) (site item)) as [reading | e] eqn:Hf.
  - destruct (unchanged item reading) eqn:Hg.
    + rewrite (taskFunction_unchanged _ _ _ Hf Hg). by left.
    + rewrite (taskFunction_changed _ _ _ Hf Hg).
      pose proof Hg as Hg'.
      apply orb_false_elim in Hg' as [Hfalsy%falsy_not_nan _].
      destruct (dbInstance w) as [db |] eqn:Hdb.
      * rewrite (updateWatchlist_run (update_of item reading) _ _ Hdb Hfalsy).
        destruct (head _) as [r |]; [| by left].
        rewrite prePriceCheck_run. cbn [botInstance set_db].
        destruct (botInstance w) as [outbox |] eqn:Hbot;
          [| left; unfold sent; cbn; by rewrite Hbot].
        destruct (lt (price reading) (last_price item)) eqn:Hlt.
        -- right. eexists. split; [by eexists _, _ |].
           unfold sent. cbn. by rewrite Hbot.
        -- left. unfold sent. cbn. by rewrite Hbot.
      * rewrite (updateWatchlist_closed _ _ Hdb). by left.
  - rewrite (taskFunction_fetch_throws _ _ _ Hf). by left.
Qed.

(** X9: what one task touches.  Whatever the page and the state, a task
    leaves the sessions alone, keeps every row with its id, owner, url and
    site, leaves every row of another id as it is, and sends nothing or one
    message: a price drop, to the owner of its item, for a price below the
    stored one. *)
Theorem taskFunction_footprint item w :
  let after := (taskFunction item w).2 in
  userStates after = userStates w
  ∧ Forall2 (λ r r', same_item r r' ∧ (id r ≠ id item → r' = r))
            (rows_of w) (rows_of after)
  ∧ (sent after = sent w
     ∨ ∃ m, drop_notice item m ∧ sent after = sent w ++ [m]).
Proof.
  intros after. split_and!.
  - apply keeps_taskFunction.
  - apply taskFunction_same_items.
  - apply taskFunction_sent.
Qed.

(** X10: the task of an item whose row is no longer in the table.  When the
    page shows a changed price, the update finds no row: the task writes
    nothing, sends nothing, logs the failed update and its own failure, and
    throws. *)
Theorem taskFunction_on_deleted_row item reading w db :
  dbInstance w = Some db →
  (∀ r, r ∈ price_tracker db → id r ≠ id item) →
  fetchPrice (url item) (site item) w = (Normal reading, w) →
  falsy (price reading) = false →
  strict_eq (price reading) (last_price item) = false →
  let after := taskFunction item w in
  after.1 = Throw (Error (str "Something went wrong. Please try again."))
  ∧ dbInstance after.2 = Some db
  ∧ botInstance after.2 = botInstance w
  ∧ console_error after.2
    = console_error w ++
        [[LogText (str "Something went wrong:");
          LogExn (TypeError (str "Cannot destructure property 'chat_id' of 'update.get(...)' as it is undefined."))];
         [LogText (str "Error checking"); LogText (url item);
          LogText (str "Database update failed")]].
Proof.
  intros Hdb Hnone Hfetch Hfalsy Hne after. subst after.
  rewrite fetchPrice_run in Hfetch. injection Hfetch as Hf.
  assert (Hg : unchanged item reading = false)
    by (unfold unchanged; by rewrite Hfalsy, Hne).
  rewrite (taskFunction_changed _ _ _ Hf Hg).
  rewrite (updateWatchlist_none (update_of item reading) _ _ Hdb Hnone).
  cbn. split_and!; try done. by rewrite <- app_assoc.
Qed.

(** X11: the tasks of two items of different ids, each run from its start to
    its end, leave the same table whichever of the two is run first. *)
Theorem tasks_of_different_ids_commute a b w :
  id a ≠ id b →
  rows_of (taskFunction b (taskFunction a w).2).2
  = rows_of (taskFunction a (taskFunction b w).2).2.
Proof.
  intros Hne. rewrite !taskFunction_rows.
  destruct (task_update a) as [ua |] eqn:Ha, (task_update b) as [ub |] eqn:Hb;
    try reflexivity.
  apply task_update_id in Ha, Hb. apply set_price_comm. congruence.
Qed.

Lemma keeps_forEach watchlist : keeps_sessions (forEach watchlist taskFunction).
Proof.
  induction watchlist as [| item rest IH]; intros w; [done |].
  rewrite forEach_cons, IH. apply keeps_taskFunction.
Qed.

Lemma forEach_same_items watchlist w :
  Forall2 same_item (rows_of w) (rows_of (forEach watchlist taskFunction w).2).
Proof.
  revert w. induction watchlist as [| item rest IH]; intros w.
  - apply Forall_Forall2_diag, Forall_forall. intros r _. apply same_item_refl.
  - rewrite forEach_cons.
    eapply Forall2_trans; [apply same_item_trans | | apply IH].
    eapply Forall2_impl; [apply taskFunction_same_items |]. by intros r r' [? _].
Qed.

Lemma forEach_sent watchlist w :
  ∃ new,
    sent (forEach watchlist taskFunction w).2 = sent w ++ new
    ∧ Forall (λ m, ∃ item, item ∈ watchlist ∧ drop_notice item m) new.
Proof.
  revert w. induction watchlist as [| item rest IH]; intros w.
  - exists []. split; [by rewrite app_nil_r | constructor].
  - rewrite forEach_cons.
    destruct (IH (taskFunction item w).2) as (new & -> & Hnew).
    assert (Hrest : Forall (λ m, ∃ i, i ∈ item :: rest ∧ drop_notice i m) new).
    { eapply Forall_impl; [exact Hnew |].
      intros m (i & Hi & Hm). exists i. split; [by right | exact Hm]. }
    destruct (taskFunction_sent item w) as [-> | (m & Hm & ->)].
    + by exists new.
    + exists (m :: new). split; [by rewrite <- app_assoc |].
      constructor; [| exact Hrest]. exists item. split; [left | exact Hm].
Qed.

(** X12: what a firing touches.  A firing leaves the sessions alone; it adds
    no row and deletes none, and every row keeps its id, owner, url and site;
    every message it sends is a price drop for a row of the table, sent to
    the owner of that row; and on an empty table it changes nothing. *)
Theorem firing_footprint w :
  let after := (firing w).2 in
  userStates after = userStates w
  ∧ Forall2 same_item (rows_of w) (rows_of after)
  ∧ (∃ new,
       sent after = sent w ++ new
       ∧ Forall (λ m, ∃ item, item ∈ rows_of w ∧ drop_notice item m) new)
  ∧ (rows_of w = [] → after = w).
Proof.
  intros after. subst after.
  assert (Hsame : Forall2 same_item (rows_of w) (rows_of w))
    by (apply Forall_Forall2_diag, Forall_forall; intros r _;
        apply same_item_refl).
  destruct (readable_dec (rows_of w)) as [Hread | Hread]; cycle 1.
  { destruct (firing_unread _ Hread) as [message ->]. split_and!; try done.
    - exists []. split; [by rewrite app_nil_r | constructor].
    - intros Hnil. destruct Hread. rewrite Hnil. constructor. }
  destruct (dbInstance w) as [db |] eqn:Hdb.
  - assert (Hrows : rows_of w = price_tracker db)
      by (unfold rows_of; by rewrite Hdb).
    rewrite (firing_run _ _ Hdb) by (by rewrite <- Hrows).
    rewrite Hrows. split_and!.
    + apply keeps_forEach.
    + rewrite <- Hrows. apply forEach_same_items.
    + apply forEach_sent.
    + by intros ->.
  - rewrite (firing_closed _ Hdb). split_and!; try done.
    exists []. split; [by rewrite app_nil_r | constructor].
Qed.

End PollingFootprint.

(* ===================================================================== *)
(** * More of the conversation                                             *)
(* ===================================================================== *)

(** ** What leaves the rows of the other owners alone *)

Lemma others_ret {A} owner (a : A) : keeps_other_owners owner (mret a).
Proof. done. Qed.

Lemma others_throw {A} owner (e : Exn) : keeps_other_owners owner (throw (A := A) e).
Proof. done. Qed.

Lemma others_lift {A} owner (c : Completion A) : keeps_other_owners owner (lift c).
Proof. done. Qed.

Lemma others_bind {A B} owner (m : M A) (f : A → M B) :
  keeps_other_owners owner m → (∀ a, keeps_other_owners owner (f a)) →
  keeps_other_owners owner (m ≫= f).
Proof.
  intros Hm Hf w other Hother. unfold mbind, M_bind.
  specialize (Hm w other Hother).
  destruct (m w) as [[a | e] w1]; [| exact Hm].
  rewrite (Hf a w1 other Hother). exact Hm.
Qed.

Lemma others_try_catch {A} owner (body : M A) (handler : Exn → M A) :
  keeps_other_owners owner body → (∀ e, keeps_other_owners owner (handler e)) →
  keeps_other_owners owner (try_catch body handler).
Proof.
  intros Hm Hh w other Hother. unfold try_catch.
  specialize (Hm w other Hother).
  destruct (body w) as [[a | e] w1]; [exact Hm |].
  rewrite (Hh e w1 other Hother). exact Hm.
Qed.

Lemma others_sendMessage owner chatId text :
  keeps_other_owners owner (sendMessage chatId text).
Proof. intros w other _. unfold sendMessage. by destruct (botInstance w). Qed.

Lemma others_getInstance owner : keeps_other_owners owner getInstance.
Proof. intros w other _. unfold getInstance. by destruct (dbInstance w). Qed.

Lemma others_console_error_log owner args :
  keeps_other_owners owner (console_error_log args).
Proof. done. Qed.

Section ConversationFootprint.
Context `{Outside}.

Lemma others_fetchPrice owner url site : keeps_other_owners owner (fetchPrice url site).
Proof. intros w other _. by rewrite fetchPrice_run. Qed.

Lemma others_addToWatchlist owner url site price currency :
  keeps_other_owners owner (addToWatchlist owner url site price currency).
Proof.
  intros w other Hother.
  destruct (dbInstance w) as [db |] eqn:Hdb.
  - destruct (is_nan price) eqn:Hnan.
    + unfold addToWatchlist, getInstance, try_catch, mbind, M_bind.
      by rewrite Hdb, Hnan.
    + rewrite (addToWatchlist_run _ _ _ _ _ _ _ Hdb Hnan).
      unfold rows_of, watchlist_of. cbn. rewrite Hdb. cbn.
      rewrite filter_app, filter_cons_False by (cbn; congruence).
      by rewrite app_nil_r.
  - unfold addToWatchlist, getInstance, mbind, M_bind. by rewrite Hdb.
Qed.

Lemma others_removeFromWatchlist owner arg :
  keeps_other_owners owner (removeFromWatchlist owner arg).
Proof.
  intros w other Hother.
  destruct (dbInstance w) as [db |] eqn:Hdb.
  - rewrite (removeFromWatchlist_run _ _ _ _ Hdb).
    unfold rows_of, watchlist_of. cbn. rewrite Hdb. cbn.
    apply filter_frame. intros r Hr [Hm _]. congruence.
  - unfold removeFromWatchlist, getInstance, mbind, M_bind. by rewrite Hdb.
Qed.

Lemma others_addCommand owner url site :
  keeps_other_owners owner (addCommand owner url site).
Proof.
  unfold addCommand.
  apply others_bind; [apply others_sendMessage | intros _].
  apply others_bind; [apply others_fetchPrice | intros reading].
  apply others_bind; [apply others_addToWatchlist | intros chat_id].
  apply others_sendMessage.
Qed.

Lemma others_removeCommand owner id :
  keeps_other_owners owner (removeCommand owner id).
Proof.
  unfold removeCommand.
  apply others_bind; [apply others_sendMessage | intros _].
  apply others_bind; [apply others_removeFromWatchlist | intros changes].
  case_bool_decide; apply others_sendMessage.
Qed.

Lemma others_continuation step owner msg :
  keeps_other_owners owner (continuation step owner msg).
Proof.
  destruct step; simpl.
  - unfold handleUserStateForAddCommand, text_trim.
    destruct (Telegram.text msg) as [t |].
    + apply others_bind; [apply others_ret | intros text].
      case_bool_decide; [apply others_sendMessage | apply others_addCommand].
    + apply others_bind; [apply others_throw | intros text].
      case_bool_decide; [apply others_sendMessage | apply others_addCommand].
  - unfold handleUserStateForRemoveCommand, text_trim.
    destruct (Telegram.text msg) as [t |].
    + apply others_bind; [apply others_ret | intros id].
      apply others_removeCommand.
    + apply others_bind; [apply others_throw | intros id].
      apply others_removeCommand.
Qed.

(** X13: a message changes the rows and the session of its sender only.
    Whatever the message and the pending step, after [listenToMessages] the
    watchlist of every other owner reads as before and the session of every
    other owner is as it was. *)
Theorem listenToMessages_touches_sender_only chatId msg w other :
  other ≠ chatId →
  let after := (listenToMessages chatId msg w).2 in
  watchlist_of other (rows_of after) = watchlist_of other (rows_of w)
  ∧ userStates after !! other = userStates w !! other.
Proof.
  intros Hother after. subst after.
  destruct (userStates w !! chatId) as [step |] eqn:Hstep.
  - rewrite (listenToMessages_run _ _ _ _ Hstep).
    pose proof (others_continuation step chatId msg w other Hother) as Hrows.
    pose proof (keeps_continuation step chatId msg w) as Hkeep.
    destruct (continuation step chatId msg w) as [[[] | e] w1]; cbn in *.
    + split; [exact Hrows |]. rewrite Hkeep. by apply lookup_delete_ne.
    + split; [exact Hrows | by rewrite Hkeep].
  - by rewrite (listenToMessages_idle _ _ _ Hstep).
Qed.

(** X14: messages that carry no text, and messages of owners without
    session.  Without a pending session a message is ignored, whatever it
    carries; with one, a message without text makes the read of
    [msg.text.trim()] throw a [TypeError]: nothing is sent, nothing is
    written and the session stays pending. *)
Theorem messages_without_session_or_text chatId msg w :
  (userStates w !! chatId = None →
   listenToMessages chatId msg w = (Normal tt, w))
  ∧ (∀ step,
       userStates w !! chatId = Some step →
       Telegram.text msg = None →
       listenToMessages chatId msg w
       = (Throw (TypeError (str "Cannot read properties of undefined (reading 'trim')")), w)).
Proof.
  split.
  - apply listenToMessages_idle.
  - intros step Hstep Htext. rewrite (listenToMessages_run _ _ _ _ Hstep).
    destruct step; simpl;
      unfold handleUserStateForAddCommand, handleUserStateForRemoveCommand,
        text_trim, mbind, M_bind; by rewrite Htext.
Qed.

(** X15: one session per owner, the last trigger wins.  After the trigger of
    the guided add followed by the trigger of the guided removal, the owner
    holds the one session "awaiting remove", both prompts were sent, no other
    owner's session changed, and the next text is handled as an id to remove,
    not as an add payload. *)
Theorem second_trigger_replaces_session chatId w outbox :
  botInstance w = Some outbox →
  let asked_add := (addCommandWithUserState chatId w).2 in
  let asked_remove := (removeCommandWithUserState chatId asked_add).2 in
  userStates asked_add !! chatId = Some awaiting_site_url
  ∧ userStates asked_remove = <[chatId := awaiting_remove]> (userStates w)
  ∧ sent asked_remove
    = outbox ++ [{| to := chatId; body := SendProductInfo |};
                 {| to := chatId; body := SendId |}]
  ∧ (∀ t,
       (listenToMessages chatId {| Telegram.text := Some t |} asked_remove).1
       = (removeCommand chatId (trim t) asked_remove).1).
Proof.
  intros Hbot asked_add asked_remove.
  assert (Hadd : asked_add
                 = set_bot (outbox ++ [{| to := chatId; body := SendProductInfo |}])
                     (set_userStates (<[chatId := awaiting_site_url]> (userStates w)) w)).
  { subst asked_add.
    unfold addCommandWithUserState, modify, sendMessage, mbind, M_bind.
    cbn. by rewrite Hbot. }
  assert (Hremove : asked_remove
                    = set_userStates (<[chatId := awaiting_remove]> (userStates w))
                        (set_bot (outbox ++ [{| to := chatId; body := SendProductInfo |};
                                            {| to := chatId; body := SendId |}]) w)).
  { subst asked_remove. rewrite Hadd.
    unfold removeCommandWithUserState, modify, sendMessage, mbind, M_bind.
    cbn. rewrite insert_insert_eq, <- app_assoc. reflexivity. }
  split_and!.
  - rewrite Hadd. cbn. apply lookup_insert_eq.
  - by rewrite Hremove.
  - by rewrite Hremove.
  - intros t.
    assert (Hstep : userStates asked_remove !! chatId = Some awaiting_remove)
      by (rewrite Hremove; cbn; apply lookup_insert_eq).
    rewrite (listenToMessages_run _ _ _ _ Hstep). simpl.
    unfold handleUserStateForRemoveCommand, text_trim, mbind, M_bind, mret,
      M_ret. cbn [Telegram.text].
    by destruct (removeCommand chatId (trim t) asked_remove) as [[[] | e] w1].
Qed.

Lemma removeCommand_run chatId wanted w db outbox :
  dbInstance w = Some db →
  botInstance w = Some outbox →
  let doomed r := chat_id r = chatId ∧ id_is (ArgText wanted) r in
  removeCommand chatId wanted w
  = (Normal tt,
     set_bot
       (outbox ++
          [{| to := chatId; body := Removing wanted |};
           {| to := chatId;
              body := if bool_decide (0 < length (filter doomed (price_tracker db)))%nat
                      then Removed wanted else NoProductFound wanted |}])
       (set_db {| price_tracker := filter (λ r, ¬ doomed r) (price_tracker db);
                  sqlite_sequence := sqlite_sequence db |} w)).
Proof.
  intros Hdb Hbot doomed.
  unfold removeCommand, mbind, M_bind, sendMessage at 1. rewrite Hbot.
  erewrite removeFromWatchlist_run by (cbn; exact Hdb).
  fold doomed. case_bool_decide; unfold sendMessage; cbn;
    by rewrite <- app_assoc.
Qed.

(** X16: the guided removal.  With the removal of an id awaited, the database
    opened and the bot created, a text is trimmed and taken as the id: the
    rows of the sender with that id are deleted and no other, the sender is
    told that the product was removed when a row was deleted and that none
    was found otherwise, and the session is deleted. *)
Theorem guided_remove_deletes_own_row chatId t w db outbox :
  userStates w !! chatId = Some awaiting_remove →
  dbInstance w = Some db →
  botInstance w = Some outbox →
  let wanted := trim t in
  let doomed r := chat_id r = chatId ∧ integer_of_text wanted = Some (id r) in
  let after := listenToMessages chatId {| Telegram.text := Some t |} w in
  after.1 = Normal tt
  ∧ rows_of after.2 = filter (λ r, ¬ doomed r) (price_tracker db)
  ∧ sent after.2
    = outbox ++
        [{| to := chatId; body := Removing wanted |};
         {| to := chatId;
            body := if bool_decide (0 < length (filter doomed (price_tracker db)))%nat
                    then Removed wanted else NoProductFound wanted |}]
  ∧ userStates after.2 = delete chatId (userStates w).
Proof.
  intros Hstep Hdb Hbot wanted doomed after. subst after.
  rewrite (listenToMessages_run _ _ _ _ Hstep). simpl.
  unfold handleUserStateForRemoveCommand, text_trim, mbind, M_bind, mret, M_ret.
  cbn [Telegram.text]. fold wanted.
  rewrite (removeCommand_run _ _ _ _ _ Hdb Hbot). cbn.
  split_and!; reflexivity.
Qed.

(** X17: the id of another owner's row removes nothing.  When no row of the
    sender carries the id, [removeCommand] leaves the table as it is, also
    when a row of another owner carries that id, and answers that no product
    was found. *)
Theorem removeCommand_spares_rows_of_others chatId wanted w db outbox :
  dbInstance w = Some db →
  botInstance w = Some outbox →
  (∀ r, r ∈ price_tracker db → integer_of_text wanted = Some (id r) →
        chat_id r ≠ chatId) →
  removeCommand chatId wanted w
  = (Normal tt,
     set_bot (outbox ++ [{| to := chatId; body := Removing wanted |};
                         {| to := chatId; body := NoProductFound wanted |}]) w).
Proof.
  intros Hdb Hbot Hnone.
  rewrite (removeCommand_run _ _ _ _ _ Hdb Hbot). cbn zeta.
  assert (Hspared : ∀ r, r ∈ price_tracker db →
                         ¬ (chat_id r = chatId ∧ id_is (ArgText wanted) r)).
  { intros r Hin [Hmine Hid]. by apply (Hnone r Hin Hid). }
  rewrite (filter_none (λ r, chat_id r = chatId ∧ id_is (ArgText wanted) r))
    by exact Hspared.
  rewrite filter_all by exact Hspared.
  rewrite bool_decide_eq_false_2 by (cbn; lia).
  f_equal. destruct w, db. cbn in *. by rewrite Hdb.
Qed.

(** X18: a product of a site without extractor is never added.  For every
    site other than "amazon" [addCommand] throws, whatever the URL and the
    state, and leaves the table and the sessions as they are. *)
Theorem addCommand_unsupported_site_adds_nothing chatId url site w :
  site ≠ str "amazon" →
  let after := addCommand chatId url site w in
  (∃ e, after.1 = Throw e)
  ∧ dbInstance after.2 = dbInstance w
  ∧ userStates after.2 = userStates w.
Proof.
  intros Hsite after.
  assert (Hrun : ∃ e w', after = (Throw e, w')
                         ∧ dbInstance w' = dbInstance w
                         ∧ userStates w' = userStates w).
  { subst after. unfold addCommand, mbind, M_bind, sendMessage at 1.
    destruct (botInstance w) as [outbox |]; [| by eexists _, _].
    rewrite fetchPrice_run. unfold fetched.
    destruct (axios_get url) as [data | message]; [| by eexists _, _].
    unfold pipeline. rewrite bool_decide_eq_false_2 by exact Hsite.
    by eexists _, _. }
  destruct Hrun as (e & w' & -> & Hdb & Hstates). eauto.
Qed.

End ConversationFootprint.

(* ===================================================================== *)
(** * The two handles of the process                                       *)
(* ===================================================================== *)

Section Handles.
Context `{Outside}.

(** X19: the database is opened once.  [initializeDatabase] returns the
    database that [getInstance] returns from then on; a second call returns
    the same database and changes nothing, whatever the file holds by then;
    opened on a file without table, the table is empty and the first product
    inserted gets the id 1. *)
Theorem initializeDatabase_opens_once file file' w :
  let opened := initializeDatabase file w in
  (∃ db,
     opened.1 = Normal db
     ∧ getInstance opened.2 = (Normal db, opened.2)
     ∧ initializeDatabase file' opened.2 = (Normal db, opened.2))
  ∧ (∀ db, dbInstance w = Some db → opened = (Normal db, w))
  ∧ (dbInstance w = None →
     file = None →
     getAllWatchlist opened.2 = (Normal [], opened.2)
     ∧ ∀ chatId url site price currency,
         is_nan price = false →
         rows_of (addToWatchlist chatId url site price currency opened.2).2
         = [{| id := 1; chat_id := chatId; Runtime.url := url;
               Runtime.site := site; last_price := price;
               Runtime.currency := currency |}]).
Proof.
  intros opened. subst opened. unfold initializeDatabase. split_and!.
  - destruct (dbInstance w) as [db |] eqn:Hdb; eexists; cbn;
      unfold getInstance; cbn; rewrite ?Hdb; auto.
  - by intros db ->.
  - intros -> ->. cbn. split; [reflexivity |].
    intros chatId url site price currency Hnan.
    erewrite addToWatchlist_run by (reflexivity || exact Hnan). reflexivity.
Qed.

(** X20: the bot is created once, and needs a token.  Without a bot and
    without a token (unset or empty) [createBot] throws and [getBot] keeps
    throwing; with a token it creates a bot that has sent nothing, which
    [getBot] then finds; once a bot exists [createBot] changes nothing, so
    the messages sent are kept. *)
Theorem createBot_creates_once token token' w :
  (botInstance w = None →
   truthy_string (default [] token) = false →
   createBot token w
   = (Throw (Error (str "Telegram bot token is missing in environment variables.")), w)
   ∧ getBot w = (Throw (Error (str "Telegram bot not initialized!")), w))
  ∧ (botInstance w = None →
     truthy_string (default [] token) = true →
     let created := (createBot token w).2 in
     sent created = []
     ∧ getBot created = (Normal tt, created)
     ∧ createBot token' created = (Normal tt, created))
  ∧ (∀ outbox, botInstance w = Some outbox → createBot token w = (Normal tt, w)).
Proof.
  unfold createBot, getBot. split_and!.
  - intros -> ->. auto.
  - intros -> ->. cbn. auto.
  - by intros outbox ->.
Qed.

End Handles.

(* ===================================================================== *)
(** * The properties above on concrete states                              *)
(* ===================================================================== *)

(** Every row of a list passes a test that can be computed. *)
Ltac every_row :=
  apply Forall_forall; apply (bool_decide_unpack _); vm_compute; exact I.

(** A price, and the price of every row of a list, reads back. *)
Ltac price_reads_back :=
  split; [vm_compute; reflexivity | vm_compute; discriminate].
Ltac prices_read_back :=
  let r := fresh "r" in
  let Hr := fresh "Hr" in
  intros r Hr; vm_compute in Hr;
  repeat (apply elem_of_cons in Hr as [-> | Hr]; [price_reads_back |]);
  by apply elem_of_nil in Hr.

(** X1, at the three-item table: owner 43 adds a fourth product. *)
Lemma addToWatchlist_then_getWatchlist_witness :
  let O := offline in
  let added :=
    addToWatchlist 43 (str (shop "4")) (str "amazon") (of_Z 250) (str "Rs")
      three_items in
  added.1 = Normal 43
  ∧ ∃ r, id r = 4 ∧ last_price r = of_Z 250
         ∧ (getWatchlist 43 added.2).1
           = Normal [Fixture.row 3 43 (shop "3") 100; r].
Proof.
  intros O added.
  destruct (addToWatchlist_then_getWatchlist (H := O) three_items three_rows
              43 (str (shop "4")) (str "amazon") (of_Z 250) (str "Rs")
              eq_refl eq_refl ltac:(price_reads_back)
              ltac:(prices_read_back))
    as (Hret & r & Hid & _ & _ & _ & Hprice & _ & _ & Hlist & _).
  split; [exact Hret |]. exists r. split; [exact Hid |].
  split; [exact Hprice | exact Hlist].
Defined.

(** X2, at the three-item table: the id 4 is given once. *)
Lemma deleted_id_is_not_reused_witness :
  let O := offline in
  let first_added :=
    (addToWatchlist 42 (str (shop "4")) (str "amazon") (of_Z 250) (str "Rs")
       three_items).2 in
  let removed := removeFromWatchlist 42 (ArgNumber 4) first_added in
  let second_added :=
    (addToWatchlist 42 (str (shop "5")) (str "amazon") (of_Z 70) (str "Rs")
       removed.2).2 in
  removed.1 = Normal 1%nat
  ∧ rows_of removed.2 = watchlist
  ∧ ∃ r, rows_of second_added = watchlist ++ [r] ∧ id r = 5.
Proof.
  intros O first_added removed second_added.
  destruct (deleted_id_is_not_reused (H := O) three_items three_rows 42
              (str (shop "4")) (str "amazon") (of_Z 250) (str "Rs")
              (str (shop "5")) (str "amazon") (of_Z 70) (str "Rs")
              eq_refl eq_refl eq_refl)
    as (Hn & Hrows & r & Hsecond & Hid & _).
  split; [exact Hn |]. split; [exact Hrows |]. exists r.
  split; [exact Hsecond | exact Hid].
Defined.

(** X3, at the three-item table and the id 9. *)
Lemma updateWatchlist_missing_id_witness :
  let after :=
    updateWatchlist {| Update.id := 9; Update.lastPrice := of_Z 50;
                       Update.currency := str "Rs" |} three_items in
  after.1 = Throw (Error (str "Database update failed"))
  ∧ dbInstance after.2 = Some three_rows.
Proof.
  intros after.
  destruct (updateWatchlist_missing_id three_items three_rows
              {| Update.id := 9; Update.lastPrice := of_Z 50;
                 Update.currency := str "Rs" |} eq_refl ltac:(every_row))
    as (Hthrow & Hdb & _).
  split; [exact Hthrow | exact Hdb].
Defined.

(** X4, at the three-item table: the price of id 2 is set to 80. *)
Lemma updateWatchlist_writes_price_and_currency_only_witness :
  let after :=
    updateWatchlist {| Update.id := 2; Update.lastPrice := of_Z 80;
                       Update.currency := str "Rs" |} three_items in
  after.1 = Normal 42
  ∧ rows_of after.2
    = [Fixture.row 1 42 (shop "1") 100; Fixture.row 2 42 (shop "2") 80;
       Fixture.row 3 43 (shop "3") 100]
  ∧ userStates after.2 = userStates three_items.
Proof.
  intros after.
  destruct (updateWatchlist_writes_price_and_currency_only
              three_items three_rows
              {| Update.id := 2; Update.lastPrice := of_Z 80;
                 Update.currency := str "Rs" |}
              (Fixture.row 2 42 (shop "2") 100) eq_refl
              ltac:(unfold primary_key; apply (bool_decide_unpack _);
                    vm_compute; exact I)
              ltac:(right; left) eq_refl eq_refl)
    as (Hret & _ & _ & Hstates & _).
  split; [exact Hret |]. split; [reflexivity | exact Hstates].
Defined.

(** X5, at a process whose database is not opened. *)
Lemma helpers_need_the_database_witness :
  let O := offline in
  getAllWatchlist not_opened
  = (Throw (Error (str "Database not initialized!")), not_opened)
  ∧ clearAll 42 not_opened
    = (Throw (Error (str "Database not initialized!")), not_opened).
Proof.
  intros O.
  destruct (helpers_need_the_database (H := O) not_opened eq_refl)
    as (_ & _ & _ & Hall & _ & Hclear).
  split; [exact Hall | exact (Hclear 42)].
Defined.

(** X6, at the three-item table: owner 42 removes id 2, or clears. *)
Lemma deletions_read_back_witness :
  let O := offline in
  (getWatchlist 42 (removeFromWatchlist 42 (ArgNumber 2) three_items).2).1
  = Normal [Fixture.row 1 42 (shop "1") 100]
  ∧ (getWatchlist 42 (clearAll 42 three_items).2).1 = Normal [].
Proof.
  intros O.
  destruct (deletions_read_back (H := O) three_items three_rows 42
              (ArgNumber 2) eq_refl ltac:(intros r Hr _; revert r Hr;
                                          prices_read_back)) as ((Hremoved & _) & (Hcleared & _)).
  split; [exact Hremoved | exact Hcleared].
Defined.

(** X7, at a page with a currency symbol and no price. *)
Lemma reading_comes_from_first_matches_witness :
  pipeline (str "amazon") (Some Fixture.amazon) (load page_without_price)
  = Normal {| price := of_Z 0; currencyText := str "Rs" |}.
Proof.
  exact (proj1 (reading_comes_from_first_matches Fixture.amazon
                  (load page_without_price)) eq_refl).
Defined.

(** X8, at a URL that cannot be fetched. *)
Lemma fetchPrice_failures_witness :
  let O := offline in
  fetchPrice (str (shop "1")) (str "amazon") three_items
  = (Throw (Error (str "getaddrinfo ENOTFOUND")), three_items).
Proof.
  intros O.
  exact (proj1 (fetchPrice_failures (H := O) (str (shop "1")) (str "amazon")
                  three_items) (str "getaddrinfo ENOTFOUND") eq_refl).
Defined.

(** X10, at an empty table and an item whose page shows 90. *)
Lemma taskFunction_on_deleted_row_witness :
  let O := showing "90" in
  let after := taskFunction item (Fixture.world [] []) in
  after.1 = Throw (Error (str "Something went wrong. Please try again."))
  ∧ rows_of after.2 = []
  ∧ sent after.2 = [].
Proof.
  intros O after.
  destruct (taskFunction_on_deleted_row (H := O) item
              {| price := of_Z 90; currencyText := str "Rs" |}
              (Fixture.world [] []) {| price_tracker := []; sqlite_sequence := 0 |}
              eq_refl ltac:(every_row) eq_refl eq_refl eq_refl)
    as (Hthrow & _).
  split; [exact Hthrow |]. split; reflexivity.
Defined.

(** X11, at the first and the third item of the watchlist. *)
Lemma tasks_of_different_ids_commute_witness :
  let O := second_unreachable in
  let a := Fixture.row 1 42 (shop "1") 100 in
  let b := Fixture.row 3 43 (shop "3") 100 in
  rows_of (taskFunction b (taskFunction a three_items).2).2
  = rows_of (taskFunction a (taskFunction b three_items).2).2.
Proof.
  intros O a b.
  apply (tasks_of_different_ids_commute (H := O) a b three_items).
  vm_compute. discriminate.
Defined.

(** X12, at an empty table. *)
Lemma firing_footprint_witness :
  let O := second_unreachable in
  (firing (Fixture.world [] [])).2 = Fixture.world [] [].
Proof.
  intros O.
  destruct (firing_footprint (H := O) (Fixture.world [] []))
    as (_ & _ & _ & Hempty).
  exact (Hempty eq_refl).
Defined.

(** X13, at the message "1" of owner 42, seen from owner 43. *)
Lemma listenToMessages_touches_sender_only_witness :
  let O := offline in
  let after := (listenToMessages 42 (message "1") two_sessions).2 in
  rows_of after
  = [Fixture.row 2 42 (shop "2") 100; Fixture.row 3 43 (shop "3") 100]
  ∧ watchlist_of 43 (rows_of after) = [Fixture.row 3 43 (shop "3") 100]
  ∧ userStates after !! 43 = Some awaiting_site_url.
Proof.
  intros O after.
  destruct (listenToMessages_touches_sender_only (H := O) 42 (message "1")
              two_sessions 43 ltac:(discriminate)) as (Hrows & Hstate).
  split; [reflexivity |]. split; [exact Hrows | exact Hstate].
Defined.

(** X14, at a message without text while the add payload is awaited. *)
Lemma messages_without_session_or_text_witness :
  let O := web in
  let photo := {| Telegram.text := None |} in
  listenToMessages 7 photo awaiting_add = (Normal tt, awaiting_add)
  ∧ listenToMessages 42 photo awaiting_add
    = (Throw (TypeError (str "Cannot read properties of undefined (reading 'trim')")),
       awaiting_add).
Proof.
  intros O photo.
  destruct (messages_without_session_or_text (H := O) 7 photo awaiting_add)
    as (Hidle & _).
  destruct (messages_without_session_or_text (H := O) 42 photo awaiting_add)
    as (_ & Hphoto).
  split; [exact (Hidle eq_refl) | exact (Hphoto awaiting_site_url eq_refl eq_refl)].
Defined.

(** X15, at a process without session. *)
Lemma second_trigger_replaces_session_witness :
  let O := offline in
  let asked_add := (addCommandWithUserState 42 three_items).2 in
  let asked_remove := (removeCommandWithUserState 42 asked_add).2 in
  userStates asked_remove = <[42 := awaiting_remove]> (userStates three_items)
  ∧ sent asked_remove
    = [{| to := 42; body := SendProductInfo |}; {| to := 42; body := SendId |}].
Proof.
  intros O asked_add asked_remove.
  destruct (second_trigger_replaces_session (H := O) 42 three_items [] eq_refl)
    as (_ & Hstates & Hsent & _).
  split; [exact Hstates | exact Hsent].
Defined.

(** X16, at the text " 2 " of owner 42. *)
Lemma guided_remove_deletes_own_row_witness :
  let O := offline in
  let after :=
    listenToMessages 42 (message " 2 ") two_sessions in
  after.1 = Normal tt
  ∧ rows_of after.2
    = [Fixture.row 1 42 (shop "1") 100; Fixture.row 3 43 (shop "3") 100]
  ∧ sent after.2
    = [{| to := 42; body := Removing (str "2") |};
       {| to := 42; body := Removed (str "2") |}].
Proof.
  intros O after.
  destruct (guided_remove_deletes_own_row (H := O) 42 (str " 2 ") two_sessions
              three_rows [] eq_refl eq_refl eq_refl)
    as (Hret & Hrows & Hsent & _).
  split; [exact Hret |]. split; [exact Hrows | exact Hsent].
Defined.

(** X17, at the id 3, a row of owner 43, asked by owner 42. *)
Lemma removeCommand_spares_rows_of_others_witness :
  let O := offline in
  removeCommand 42 (str "3") three_items
  = (Normal tt,
     set_bot [{| to := 42; body := Removing (str "3") |};
              {| to := 42; body := NoProductFound (str "3") |}] three_items).
Proof.
  intros O.
  apply (removeCommand_spares_rows_of_others (H := O) 42 (str "3") three_items
           three_rows [] eq_refl eq_refl).
  apply (proj1 (Forall_forall
                  (λ r, integer_of_text (str "3") = Some (id r) → chat_id r ≠ 42)
                  _)).
  apply (bool_decide_unpack _). vm_compute. exact I.
Defined.

(** X18, at the site "flipkart". *)
Lemma addCommand_unsupported_site_adds_nothing_witness :
  let O := web in
  let after := addCommand 42 (str page_url) (str "flipkart") awaiting_add in
  (∃ e, after.1 = Throw e) ∧ dbInstance after.2 = dbInstance awaiting_add.
Proof.
  intros O after.
  destruct (addCommand_unsupported_site_adds_nothing (H := O) 42 (str page_url)
              (str "flipkart") awaiting_add ltac:(vm_compute; discriminate))
    as (Hthrow & Hdb & _).
  split; [exact Hthrow | exact Hdb].
Defined.

(** X19, at a process whose database is not opened and a file without
    table. *)
Lemma initializeDatabase_opens_once_witness :
  let O := offline in
  let opened := initializeDatabase None not_opened in
  getAllWatchlist opened.2 = (Normal [], opened.2)
  ∧ rows_of (addToWatchlist 42 (str (shop "1")) (str "amazon") (of_Z 100)
               (str "Rs") opened.2).2
    = [Fixture.row 1 42 (shop "1") 100].
Proof.
  intros O opened.
  destruct (initializeDatabase_opens_once (H := O) None None not_opened)
    as (_ & _ & Hfresh).
  destruct (Hfresh eq_refl eq_refl) as (Hall & Hadd).
  split; [exact Hall |].
  exact (Hadd 42 (str (shop "1")) (str "amazon") (of_Z 100) (str "Rs") eq_refl).
Defined.

(** X20, at a process without bot. *)
Lemma createBot_creates_once_witness :
  createBot None no_bot
  = (Throw (Error (str "Telegram bot token is missing in environment variables.")),
     no_bot)
  ∧ getBot (createBot (Some (str "123:abc")) no_bot).2
    = (Normal tt, (createBot (Some (str "123:abc")) no_bot).2).
Proof.
  destruct (createBot_creates_once None None no_bot) as (Hnone & _ & _).
  destruct (createBot_creates_once (Some (str "123:abc")) None no_bot)
    as (_ & Hsome & _).
  split; [exact (proj1 (Hnone eq_refl eq_refl)) |].
  exact (proj1 (proj2 (Hsome eq_refl eq_refl))).
Defined.

(** X21, at the three-item table. *)
Lemma store_keeps_primary_key_witness :
  let O := second_unreachable in
  primary_key (rows_of (firing three_items).2)
  ∧ primary_key
      (rows_of (addToWatchlist 42 (str (shop "4")) (str "amazon") (of_Z 250)
                  (str "Rs") three_items).2)
  ∧ primary_key (rows_of (clearAll 42 three_items).2).
Proof.
  intros O.
  destruct (store_keeps_primary_key (H := O) three_items
              ltac:(unfold primary_key; apply (bool_decide_unpack _);
                    vm_compute; exact I))
    as (Hadd & _ & _ & Hclear & _ & Hfiring).
  split; [exact Hfiring |]. split; [apply Hadd | apply Hclear].
Defined.

(** X22, at a table whose second row is stored at 2^53, while the page of
    the first shows 90. *)
Lemma unsafe_price_stops_the_reads_witness :
  let O := showing "90" in
  let w := Fixture.world unsafe_rows [] in
  (getWatchlist 43 w).1 = Throw (Error (str "Database query failed"))
  ∧ (getWatchlist 42 w).1 = Normal [Fixture.row 1 42 (shop "1") 100]
  ∧ (firing w).1 = Throw (Error (str "Database query failed"))
  ∧ rows_of (firing w).2 = unsafe_rows
  ∧ sent (firing w).2 = [].
Proof.
  intros O w.
  destruct (unsafe_price_stops_the_reads (H := O) w
              {| price_tracker := unsafe_rows; sqlite_sequence := 2 |}
              (Fixture.row 2 43 (shop "2") 9007199254740992)
              eq_refl ltac:(right; left) eq_refl)
    as (message & message' & Hmine & _ & Hfiring).
  split; [exact (f_equal fst Hmine) |]. split; [reflexivity |].
  split; [exact (f_equal fst Hfiring) |].
  split; [exact (f_equal (λ run, rows_of run.2) Hfiring) |].
  exact (f_equal (λ run, sent run.2) Hfiring).
Defined.
